(** * process_glb_files.py: a shallow embedding and its properties

    The script walks [data/imports] next to its own location, and sends every
    [.glb] file it finds through three [gltf-transform] invocations (resize,
    webp, optimize), writing to [data/exports/{resize,webp,draco}].

    The embedding keeps the shape of the Python code: one definition per
    function, a state-and-exception monad for the effects (console output,
    the file system, spawned processes, [sys.exit] and uncaught errors), and
    small models of the library calls the script relies on ([pathlib],
    [str] methods, [sorted], [subprocess.run]). *)

From Stdlib Require Import String Ascii List ZArith Lia Bool DecimalString.
From Stdlib Require Import Sorted Permutation.
Import ListNotations.
Open Scope string_scope.

(** ** Python [str] methods used by the script *)

Module Py.

(** [c.lower()] on one character; only ASCII letters change. *)
Definition lower_ascii (c : ascii) : ascii :=
  let n := nat_of_ascii c in
  if (65 <=? n)%nat && (n <=? 90)%nat then ascii_of_nat (n + 32) else c.

(** [s.lower()]. *)
Fixpoint lower (s : string) : string :=
  match s with
  | EmptyString => EmptyString
  | String c s' => String (lower_ascii c) (lower s')
  end.

(** [s.rfind(c)]: index of the last occurrence of [c], or [-1]. *)
Fixpoint rfind (c : ascii) (s : string) : Z :=
  match s with
  | EmptyString => (-1)%Z
  | String a s' =>
      let i := rfind c s' in
      if (0 <=? i)%Z then (i + 1)%Z
      else if Ascii.eqb a c then 0%Z else (-1)%Z
  end.

(** [s[i:]] for a non-negative [i]. *)
Definition slice_from (i : Z) (s : string) : string :=
  substring (Z.to_nat i) (String.length s - Z.to_nat i) s.

(** The ASCII characters for which [isspace()] holds: tab, line feed,
    vertical tab, form feed, carriage return, the four separators
    [0x1c]-[0x1f] and the blank. *)
Definition is_space (c : ascii) : bool :=
  let n := nat_of_ascii c in
  ((9 <=? n)%nat && (n <=? 13)%nat) || ((28 <=? n)%nat && (n <=? 32)%nat).

Fixpoint lstrip (s : string) : string :=
  match s with
  | EmptyString => EmptyString
  | String c s' => if is_space c then lstrip s' else s
  end.

Fixpoint rstrip (s : string) : string :=
  match s with
  | EmptyString => EmptyString
  | String c s' =>
      match rstrip s' with
      | EmptyString => if is_space c then EmptyString else String c EmptyString
      | r => String c r
      end
  end.

(** [s.strip()]. *)
Definition strip (s : string) : string := rstrip (lstrip s).

(** [sep.join(items)]. *)
Definition join (sep : string) (items : list string) : string :=
  String.concat sep items.

(** [s * n]. *)
Fixpoint repeat_str (s : string) (n : nat) : string :=
  match n with
  | O => EmptyString
  | S n' => s ++ repeat_str s n'
  end.

(** [str(n)] for a non-negative counter and for an exit status. *)
Definition str_of_nat (n : nat) : string := NilZero.string_of_uint (Nat.to_uint n).
Definition str_of_Z (z : Z) : string := NilZero.string_of_int (Z.to_int z).

(** The truth value of a string: non-empty. *)
Definition truthy (s : string) : bool := negb (String.eqb s EmptyString).

(** The line feed character, written [\n] in the source. *)
Definition nl : string := String (ascii_of_nat 10) EmptyString.

(** [sorted(xs)] for elements compared with [ltb]: a stable insertion
    sort (an element goes in front of the first one that is not smaller). *)
Section Sorting.
Context {A : Type} (ltb : A -> A -> bool).

Fixpoint insert (x : A) (l : list A) : list A :=
  match l with
  | [] => [x]
  | y :: l' => if ltb y x then y :: insert x l' else x :: l
  end.

Fixpoint sorted (l : list A) : list A :=
  match l with
  | [] => []
  | x :: l' => insert x (sorted l')
  end.
End Sorting.

End Py.

(** ** [pathlib] paths

    Every path the script handles descends from the absolute directory of the
    script, so a path is the list of its components below the root; a
    component is a non-empty string without separator. *)

Definition Path := list string.

(** [p.name]: the final component, empty for the root. *)
Definition name (p : Path) : string := last p "".

(** [p.parent]; the root is its own parent. *)
Definition parent (p : Path) : Path := removelast p.

(** [p / seg] for a single segment: joining the empty segment changes
    nothing. *)
Definition truediv (p : Path) (seg : string) : Path :=
  if String.eqb seg "" then p else (p ++ [seg])%list.

Notation "p // seg" := (truediv p seg) (at level 40, left associativity).

(** [str(p)]. *)
Definition str (p : Path) : string := "/" ++ Py.join "/" p.

(** [p.suffix], as [pathlib] computes it (CPython up to 3.13): with [i] the
    index of the last dot of the name, the suffix is [name[i:]] when
    [0 < i < len(name) - 1] and empty otherwise. *)
Definition suffix (p : Path) : string :=
  let nm := name p in
  let i := Py.rfind "." nm in
  if (0 <? i)%Z && (i <? Z.of_nat (String.length nm) - 1)%Z
  then Py.slice_from i nm
  else "".

(** Equality and order of paths: component by component, as Python compares
    the lists of parts (strings by code point). *)
Fixpoint path_eqb (p q : Path) : bool :=
  match p, q with
  | [], [] => true
  | a :: p', b :: q' => String.eqb a b && path_eqb p' q'
  | _, _ => false
  end.

Fixpoint path_ltb (p q : Path) : bool :=
  match p, q with
  | _, [] => false
  | [], _ :: _ => true
  | a :: p', b :: q' =>
      match String.compare a b with
      | Lt => true
      | Eq => path_ltb p' q'
      | Gt => false
      end
  end.

(** ** The file system

    What the script can observe of it: which paths exist and of which kind.
    The entries are kept in the order in which the operating system lists
    them, which is arbitrary; the first entry for a path decides its kind,
    and the root is always a directory.  A symbolic link counts as what it
    points to, as in [is_file()], [is_dir()] and [exists()]; one that points
    to nothing is a [DanglingLink]: it is listed and occupies its name, but
    does not exist for these three questions.  A [SealedDirectory] is a
    directory in which the script may not create an entry (no write
    permission), a [FrozenDirectory] one in which creating an entry fails
    with another error of the operating system (a read-only or full file
    system); both can be listed like any directory. *)

Inductive node : Type :=
| RegularFile
| Directory
| Special
| SealedDirectory
| FrozenDirectory
| DanglingLink.

Definition FS := list (Path * node).

Fixpoint lookup (fs : FS) (p : Path) : option node :=
  match fs with
  | [] => None
  | (q, n) :: fs' => if path_eqb q p then Some n else lookup fs' p
  end.

Definition stat (fs : FS) (p : Path) : option node :=
  match p with
  | [] => Some Directory
  | _ => lookup fs p
  end.

(** [p.exists()], [p.is_file()], [p.is_dir()]. *)
Definition path_exists (fs : FS) (p : Path) : bool :=
  match stat fs p with
  | Some DanglingLink | None => false
  | Some _ => true
  end.

Definition is_file (fs : FS) (p : Path) : bool :=
  match stat fs p with Some RegularFile => true | _ => false end.

Definition is_dir (fs : FS) (p : Path) : bool :=
  match stat fs p with
  | Some Directory | Some SealedDirectory | Some FrozenDirectory => true
  | _ => false
  end.

(** The entries directly inside [d], in listing order. *)
Definition child_of (d p : Path) : bool :=
  match p with
  | [] => false
  | _ => path_eqb (parent p) d
  end.

Definition children (fs : FS) (d : Path) : list Path :=
  map fst (filter (fun e => child_of d (fst e)) fs).

(** ** Exceptions, events and the effect monad *)

Inductive exn : Type :=
| SystemExit (code : Z)
| CalledProcessError (returncode : Z) (out err : string)
| FileNotFoundError
| FileExistsError
| NotADirectoryError
| PermissionError
| OSError
| UnicodeDecodeError.

Inductive res (A : Type) : Type :=
| Ok (a : A)
| Raise (e : exn).

Arguments Ok {A} a.
Arguments Raise {A} e.

(** How a spawned command ended for the script: with an exit status, not at
    all because the executable was not found, or with another exception of
    [subprocess.run], which [run_command] does not handle. *)
Inductive spawn_status : Type :=
| ExitStatus (returncode : Z)
| NotFound
| Escaped (e : exn).

(** What a run leaves behind, in order: the lines printed, the directories
    listed, the directories ensured and the commands spawned. *)
Inductive event : Type :=
| Print (line : string)
| Iterdir (d : Path)
| Mkdir (p : Path)
| Spawn (argv : list string) (status : spawn_status).

Record World : Type := mkWorld {
  fs : FS;
  trace : list event
}.

Definition M (A : Type) : Type := World -> res A * World.

Definition ret {A} (a : A) : M A := fun w => (Ok a, w).

Definition bind {A B} (m : M A) (k : A -> M B) : M B :=
  fun w =>
    match m w with
    | (Ok a, w') => k a w'
    | (Raise e, w') => (Raise e, w')
    end.

Definition raise {A} (e : exn) : M A := fun w => (Raise e, w).

(** [try: body except ...: handler]; an exception for which [handler] has no
    clause goes on to the caller. *)
Definition try_except {A} (body : M A) (handler : exn -> option (M A)) : M A :=
  fun w =>
    match body w with
    | (Ok a, w') => (Ok a, w')
    | (Raise e, w') =>
        match handler e with
        | Some h => h w'
        | None => (Raise e, w')
        end
    end.

Declare Scope monad_scope.
Delimit Scope monad_scope with monad.
Notation "x <- c1 ;; c2" := (bind c1 (fun x => c2))
  (at level 61, c1 at next level, right associativity) : monad_scope.
Notation "c1 ;; c2" := (bind c1 (fun _ => c2))
  (at level 61, right associativity) : monad_scope.
Open Scope monad_scope.

Definition emit (e : event) : M unit :=
  fun w => (Ok tt, mkWorld (fs w) (trace w ++ [e])%list).

(** [print(line)]. *)
Definition print (line : string) : M unit := emit (Print line).

(** [sys.exit(code)]. *)
Definition sys_exit {A} (code : Z) : M A := raise (SystemExit code).

(** [if cond: body] for a body that yields nothing. *)
Definition when (cond : bool) (body : M unit) : M unit :=
  if cond then body else ret tt.

(** [for x in xs: body(x)]. *)
Fixpoint for_each {A} (xs : list A) (body : A -> M unit) : M unit :=
  match xs with
  | [] => ret tt
  | x :: xs' => body x ;; for_each xs' body
  end.

(** ** Directory operations *)

(** [os.mkdir(p)]: the name must be free, and the parent a directory in
    which entries can be created. *)
Definition os_mkdir (p : Path) (f : FS) : res FS :=
  match stat f p with
  | Some _ => Raise FileExistsError
  | None =>
      match stat f (parent p) with
      | Some Directory => Ok (f ++ [(p, Directory)])%list
      | Some SealedDirectory => Raise PermissionError
      | Some FrozenDirectory => Raise OSError
      | Some DanglingLink | None => Raise FileNotFoundError
      | Some _ => Raise NotADirectoryError
      end
  end.

(** [p.mkdir(parents=False, exist_ok=True)]: an error of [os.mkdir] is let
    through unless [p] is a directory by then. *)
Definition mkdir_exist_ok (p : Path) (f : FS) : res FS :=
  match os_mkdir p f with
  | Ok f' => Ok f'
  | Raise FileNotFoundError => Raise FileNotFoundError
  | Raise e => if is_dir f p then Ok f else Raise e
  end.

(** [p.mkdir(parents=True, exist_ok=True)], by recursion on the components
    of [p] read from the last one: when the parent is missing it is created
    in the same way first, and the directory itself afterwards. *)
Fixpoint mkdir_parents_rev (rp : list string) (f : FS) : res FS :=
  match os_mkdir (rev rp) f with
  | Ok f' => Ok f'
  | Raise FileNotFoundError =>
      match rp with
      | [] => Raise FileNotFoundError
      | _ :: rparent =>
          match mkdir_parents_rev rparent f with
          | Ok f1 => mkdir_exist_ok (rev rp) f1
          | Raise e => Raise e
          end
      end
  | Raise e => if is_dir f (rev rp) then Ok f else Raise e
  end.

Definition mkdir_parents (p : Path) (f : FS) : res FS :=
  mkdir_parents_rev (rev p) f.

Definition mkdir (p : Path) : M unit :=
  fun w =>
    match mkdir_parents p (fs w) with
    | Ok f' => (Ok tt, mkWorld f' (trace w ++ [Mkdir p])%list)
    | Raise e => (Raise e, w)
    end.

(** A question put to the file system: [p.exists()], [p.is_file()]. *)
Definition query (q : FS -> Path -> bool) (p : Path) : M bool :=
  fun w => (Ok (q (fs w) p), w).

(** [d.iterdir()]. *)
Definition iterdir (d : Path) : M (list Path) :=
  fun w =>
    let w' := mkWorld (fs w) (trace w ++ [Iterdir d])%list in
    match stat (fs w) d with
    | Some Directory | Some SealedDirectory | Some FrozenDirectory =>
        (Ok (children (fs w) d), w')
    | Some DanglingLink | None => (Raise FileNotFoundError, w')
    | Some _ => (Raise NotADirectoryError, w')
    end.

(** ** The external tool

    [gltf-transform] is a black box: given what happened so far, the file
    system and the argument vector, either it cannot be started (it is not
    found; it is found but may not be executed; the operating system
    refuses for another reason), or it runs and leaves the file system in
    some state, and then exits with a status and two captured streams, or
    has written bytes that cannot be decoded as text. *)

Inductive spawn_result : Type :=
| Exited (returncode : Z) (out err : string) (fs' : FS)
| ExecNotFound
| ExecDenied
| ExecOSError
| Undecodable (fs' : FS).

Definition Tool := list event -> FS -> list string -> spawn_result.

Record CompletedProcess : Type := mkCompleted {
  returncode : Z;
  stdout : string;
  stderr : string
}.

Section Script.

Variable tool : Tool.

(** [subprocess.run(argv, check=True, capture_output=True, text=True)]. *)
Definition subprocess_run (argv : list string) : M CompletedProcess :=
  fun w =>
    match tool (trace w) (fs w) argv with
    | Exited rc out err f' =>
        let w' := mkWorld f' (trace w ++ [Spawn argv (ExitStatus rc)])%list in
        if (rc =? 0)%Z then (Ok (mkCompleted rc out err), w')
        else (Raise (CalledProcessError rc out err), w')
    | ExecNotFound =>
        (Raise FileNotFoundError, mkWorld (fs w) (trace w ++ [Spawn argv NotFound])%list)
    | ExecDenied =>
        (Raise PermissionError,
         mkWorld (fs w) (trace w ++ [Spawn argv (Escaped PermissionError)])%list)
    | ExecOSError =>
        (Raise OSError,
         mkWorld (fs w) (trace w ++ [Spawn argv (Escaped OSError)])%list)
    | Undecodable f' =>
        (Raise UnicodeDecodeError,
         mkWorld f' (trace w ++ [Spawn argv (Escaped UnicodeDecodeError)])%list)
    end.

(** ** The script *)

(** [get_glb_files]: the loop over the directory entries appends the
    matching ones to [glb_files], which is sorted at the end. *)
Fixpoint collect_glb (entries glb_files : list Path) : M (list Path) :=
  match entries with
  | [] => ret glb_files
  | file_path :: rest =>
      regular <- query is_file file_path ;;
      if regular && String.eqb (Py.lower (suffix file_path)) ".glb"
      then collect_glb rest (glb_files ++ [file_path])%list
      else collect_glb rest glb_files
  end.

Definition get_glb_files (imports_dir : Path) : M (list Path) :=
  entries <- iterdir imports_dir ;;
  glb_files <- collect_glb entries [] ;;
  ret (Py.sorted path_ltb glb_files).

(** [run_command]. *)
Definition run_command (command : list string) (description : string) : M bool :=
  print ("Running: " ++ description) ;;
  print ("Command: " ++ Py.join " " command) ;;
  try_except
    (result <- subprocess_run command ;;
     print ("✓ Success: " ++ description) ;;
     when (Py.truthy (stdout result))
          (print ("Output: " ++ Py.strip (stdout result))) ;;
     ret true)
    (fun e =>
       match e with
       | CalledProcessError rc out err =>
           Some (print ("✗ Error: " ++ description) ;;
                 print ("Return code: " ++ Py.str_of_Z rc) ;;
                 when (Py.truthy out) (print ("Stdout: " ++ Py.strip out)) ;;
                 when (Py.truthy err) (print ("Stderr: " ++ Py.strip err)) ;;
                 ret false)
       | FileNotFoundError =>
           Some (print "✗ Error: gltf-transform not found. Please ensure it's installed and in PATH." ;;
                 ret false)
       | _ => None
       end).

(** [process_glb_file]. *)
Definition process_glb_file (input_file base_dir : Path) : M bool :=
  print (Py.nl ++ Py.repeat_str "=" 60) ;;
  print ("Processing: " ++ name input_file) ;;
  print (Py.repeat_str "=" 60) ;;
  let resize_output := base_dir // "data" // "exports" // "resize" // name input_file in
  let webp_output := base_dir // "data" // "exports" // "webp" // name input_file in
  let draco_output := base_dir // "data" // "exports" // "draco" // name input_file in
  mkdir (parent resize_output) ;;
  mkdir (parent webp_output) ;;
  mkdir (parent draco_output) ;;
  let resize_cmd :=
    ["gltf-transform"; "resize"; str input_file; str resize_output;
     "--width"; "1024"; "--height"; "1024"] in
  ok1 <- run_command resize_cmd ("Resize " ++ name input_file) ;;
  if negb ok1 then ret false else
  let webp_cmd :=
    ["gltf-transform"; "webp"; str resize_output; str webp_output;
     "--slots"; "baseColor"] in
  ok2 <- run_command webp_cmd ("WebP conversion " ++ name input_file) ;;
  if negb ok2 then ret false else
  let draco_cmd :=
    ["gltf-transform"; "optimize"; str webp_output; str draco_output;
     "--texture-compress"; "webp"] in
  ok3 <- run_command draco_cmd ("Draco optimization " ++ name input_file) ;;
  if negb ok3 then ret false else
  print ("✓ Successfully processed: " ++ name input_file) ;;
  ret true.

(** The loop of [main] over the discovered files, with its two counters. *)
Fixpoint process_files (glb_files : list Path) (script_dir : Path)
         (successful failed : nat) : M (nat * nat) :=
  match glb_files with
  | [] => ret (successful, failed)
  | file_path :: rest =>
      ok <- process_glb_file file_path script_dir ;;
      if ok then process_files rest script_dir (successful + 1) failed
      else
        print ("Failed to process: " ++ name file_path) ;;
        process_files rest script_dir successful (failed + 1)
  end.

(** [main]; [script_dir] is the absolute directory of the script. *)
Definition main (script_dir : Path) : M unit :=
  let imports_dir := script_dir // "data" // "imports" in
  present <- query path_exists imports_dir ;;
  when (negb present)
       (print ("Error: Imports directory not found: " ++ str imports_dir) ;;
        sys_exit 1) ;;
  glb_files <- get_glb_files imports_dir ;;
  match glb_files with
  | [] => print "No GLB files found in the imports directory." ;; sys_exit 0
  | _ :: _ => ret tt
  end ;;
  print ("Found " ++ Py.str_of_nat (List.length glb_files) ++ " GLB files to process:") ;;
  for_each glb_files (fun file_path => print ("  - " ++ name file_path)) ;;
  counts <- process_files glb_files script_dir 0 0 ;;
  let successful := fst counts in
  let failed := snd counts in
  print (Py.nl ++ Py.repeat_str "=" 60) ;;
  print "PROCESSING SUMMARY" ;;
  print (Py.repeat_str "=" 60) ;;
  print ("Total files: " ++ Py.str_of_nat (List.length glb_files)) ;;
  print ("Successful: " ++ Py.str_of_nat successful) ;;
  print ("Failed: " ++ Py.str_of_nat failed) ;;
  if (0 <? failed)%nat then sys_exit 1
  else print "All files processed successfully!".

(** Running the script as a program: the exit status is the argument of
    [sys.exit], 1 after an uncaught exception, 0 when [main] returns. *)
Definition run_script (script_dir : Path) (w : World) : Z * World :=
  match main script_dir w with
  | (Ok _, w') => (0%Z, w')
  | (Raise (SystemExit code), w') => (code, w')
  | (Raise _, w') => (1%Z, w')
  end.

End Script.

(** ** Vocabulary of the statements *)

(** The commands of a trace, each with the way it ended. *)
Fixpoint spawned (tr : list event) : list (list string * spawn_status) :=
  match tr with
  | [] => []
  | Spawn argv st :: tr' => (argv, st) :: spawned tr'
  | _ :: tr' => spawned tr'
  end.

(** The directory of a stage below the script's directory. *)
Definition stage_dir (base_dir : Path) (stage : string) : Path :=
  (base_dir ++ ["data"; "exports"; stage])%list.

(** A regular file with the asset extension, in any letter case. *)
Definition asset (f : FS) (p : Path) : bool :=
  is_file f p && String.eqb (Py.lower (suffix p)) ".glb".

(** A name with the asset extension: a non-empty stem followed by [.glb] in
    some letter case. *)
Definition has_asset_extension (nm : string) : Prop :=
  exists stem ext, nm = stem ++ ext /\ stem <> "" /\ Py.lower ext = ".glb".

(** Order of two paths by their names. *)
Definition name_le (p q : Path) : Prop := String.leb (name p) (name q) = true.

(** What [run_command] prints before it spawns, after a non-zero exit and
    when the tool is missing. *)
Definition announcement (command : list string) (description : string) : list event :=
  [Print ("Running: " ++ description); Print ("Command: " ++ Py.join " " command)].

Definition captured (label s : string) : list event :=
  if Py.truthy s then [Print (label ++ Py.strip s)] else [].

Definition failure_report (description : string) (rc : Z) (out err : string) : list event :=
  ([Print ("✗ Error: " ++ description); Print ("Return code: " ++ Py.str_of_Z rc)]
   ++ captured "Stdout: " out ++ captured "Stderr: " err)%list.

Definition unavailable_report : list event :=
  [Print "✗ Error: gltf-transform not found. Please ensure it's installed and in PATH."].

Definition success_report (description out : string) : list event :=
  (Print ("✓ Success: " ++ description) :: captured "Output: " out)%list.

(** What [main] prints once the files are known, and at the end. *)
Definition listing (glb_files : list Path) : list event :=
  Print ("Found " ++ Py.str_of_nat (List.length glb_files) ++ " GLB files to process:")
  :: map (fun p => Print ("  - " ++ name p)) glb_files.

Definition summary (total successful failed : nat) : list event :=
  [Print (Py.nl ++ Py.repeat_str "=" 60);
   Print "PROCESSING SUMMARY";
   Print (Py.repeat_str "=" 60);
   Print ("Total files: " ++ Py.str_of_nat total);
   Print ("Successful: " ++ Py.str_of_nat successful);
   Print ("Failed: " ++ Py.str_of_nat failed)].

Definition extend (w : World) (evs : list event) : World :=
  mkWorld (fs w) (trace w ++ evs)%list.

(** One file system keeps the directories of another. *)
Definition keeps_dirs (f f' : FS) : Prop :=
  forall p, is_dir f p = true -> is_dir f' p = true.

(** The file system a command leaves behind when it has run. *)
Definition left_behind (r : spawn_result) : option FS :=
  match r with
  | Exited _ _ _ f' | Undecodable f' => Some f'
  | ExecNotFound | ExecDenied | ExecOSError => None
  end.

(** A tool that leaves the directories it finds in place. *)
Definition preserves_dirs (tool : Tool) : Prop :=
  forall tr f argv f',
    left_behind (tool tr f argv) = Some f' -> keeps_dirs f f'.

(** Directories created one after the other on the file system alone, and
    the three directories of the stages in the order of the pipeline. *)
Fixpoint ensure_dirs (dirs : list Path) (f : FS) : res FS :=
  match dirs with
  | [] => Ok f
  | d :: rest =>
      match mkdir_parents d f with
      | Ok f1 => ensure_dirs rest f1
      | Raise e => Raise e
      end
  end.

Definition stage_dirs (base_dir : Path) : list Path :=
  [stage_dir base_dir "resize"; stage_dir base_dir "webp"; stage_dir base_dir "draco"].

(** The pieces of [process_glb_file]: what it prints first, the output of
    each stage, the directories it ensures and the steps it runs, each with
    its description. *)
Definition banner (input_file : Path) : list event :=
  [Print (Py.nl ++ Py.repeat_str "=" 60);
   Print ("Processing: " ++ name input_file);
   Print (Py.repeat_str "=" 60)].

Definition output_of (base_dir : Path) (stage : string) (input_file : Path) : Path :=
  base_dir // "data" // "exports" // stage // name input_file.

Definition output_dirs (input_file base_dir : Path) : list Path :=
  [parent (output_of base_dir "resize" input_file);
   parent (output_of base_dir "webp" input_file);
   parent (output_of base_dir "draco" input_file)].

Definition pipeline_steps (input_file base_dir : Path) : list (list string * string) :=
  [ (["gltf-transform"; "resize"; str input_file;
      str (output_of base_dir "resize" input_file);
      "--width"; "1024"; "--height"; "1024"],
     "Resize " ++ name input_file);
    (["gltf-transform"; "webp"; str (output_of base_dir "resize" input_file);
      str (output_of base_dir "webp" input_file);
      "--slots"; "baseColor"],
     "WebP conversion " ++ name input_file);
    (["gltf-transform"; "optimize"; str (output_of base_dir "webp" input_file);
      str (output_of base_dir "draco" input_file);
      "--texture-compress"; "webp"],
     "Draco optimization " ++ name input_file) ].

(** The shape of the commands spawned for a list of steps: each one in turn
    as long as the one before exited with status 0; the flag tells whether
    all of them did. *)
Inductive step_run : list (list string) -> list (list string * spawn_status) -> bool -> Prop :=
| step_run_done : step_run [] [] true
| step_run_next argv rest sp b :
    step_run rest sp b ->
    step_run (argv :: rest) ((argv, ExitStatus 0) :: sp) b
| step_run_stop argv rest st :
    st <> ExitStatus 0 ->
    step_run (argv :: rest) [(argv, st)] false.

Section Observers.

Variable tool : Tool.

(** Steps run in order until one fails. *)
Fixpoint run_steps (steps : list (list string * string)) : M bool :=
  match steps with
  | [] => ret true
  | (argv, description) :: rest =>
      ok <- run_command tool argv description ;;
      if negb ok then ret false else run_steps rest
  end.

(** What the pipeline answered for each file of the loop in turn; the list
    ends at the first file for which it raised. *)
Fixpoint file_results (glb_files : list Path) (script_dir : Path) (w : World)
  : list (res bool) :=
  match glb_files with
  | [] => []
  | file_path :: rest =>
      match process_glb_file tool file_path script_dir w with
      | (Ok true, w') => Ok true :: file_results rest script_dir w'
      | (Ok false, w') =>
          Ok false
          :: file_results rest script_dir
               (extend w' [Print ("Failed to process: " ++ name file_path)])
      | (Raise e, _) => [Raise e]
      end
  end.

(** The exit status of the script. *)
Definition exit_status (script_dir : Path) (w : World) : Z :=
  fst (run_script tool script_dir w).

End Observers.

(** The numbers of failures and of successes among the answers. *)
Definition failures (results : list (res bool)) : nat :=
  List.length (filter (fun r => match r with Ok false => true | _ => false end) results).

Definition successes (results : list (res bool)) : nat :=
  List.length (filter (fun r => match r with Ok true => true | _ => false end) results).

Definition returned (r : res bool) : Prop := exists b, r = Ok b.

(** The errors of the operating system, as opposed to [SystemExit] and to
    the failure of a command. *)
Definition is_os_error (e : exn) : bool :=
  match e with
  | FileNotFoundError | FileExistsError | NotADirectoryError
  | PermissionError | OSError => true
  | SystemExit _ | CalledProcessError _ _ _ | UnicodeDecodeError => false
  end.

(** The exceptions that end the program with its own exit status. *)
Definition is_exit (e : exn) : bool :=
  match e with
  | SystemExit _ => true
  | _ => false
  end.

(** The exceptions of [subprocess.run] that [run_command] has no clause
    for. *)
Definition unhandled (e : exn) : bool :=
  match e with
  | PermissionError | OSError | UnicodeDecodeError => true
  | _ => false
  end.

(** The imports directory, and the world in which the loop of [main] starts
    once the files have been discovered and listed. *)
Definition imports_of (script_dir : Path) : Path := script_dir // "data" // "imports".

Definition loop_start (script_dir : Path) (w : World) (glb_files : list Path) : World :=
  extend w (Iterdir (imports_of script_dir) :: listing glb_files).

Definition closing (failed : nat) : list event :=
  if (0 <? failed)%nat then [] else [Print "All files processed successfully!"].

Section Statements.

Variable tool : Tool.

(** A run over [glb_files] ends with the summary of its answers, and exits
    with status 0 exactly when none is a failure. *)
Definition reports_summary (script_dir : Path) (w : World) (glb_files : list Path) : Prop :=
  let results := file_results tool glb_files script_dir (loop_start script_dir w glb_files) in
  let K := List.length glb_files in
  let F := failures results in
  (exists body,
      trace (snd (run_script tool script_dir w))
      = (trace w ++ body ++ summary K (K - F) F ++ closing F)%list)
  /\ (exit_status tool script_dir w = 0%Z <-> F = 0).

(** The summary as claimed for every run in which each discovered file is
    answered, whatever their number. *)
Definition summary_for_every_run (script_dir : Path) (w : World) : Prop :=
  forall glb_files,
    path_exists (fs w) (imports_of script_dir) = true ->
    fst (get_glb_files (imports_of script_dir) w) = Ok glb_files ->
    Forall returned
           (file_results tool glb_files script_dir (loop_start script_dir w glb_files)) ->
    reports_summary script_dir w glb_files.

(** A failure to create the stage directories as claimed to concern one file
    only: its pipeline answers failure, and every other discovered file is
    still taken up. *)
Definition creation_failure_isolated (script_dir : Path) (w : World) : Prop :=
  forall e file_path rest,
    path_exists (fs w) (imports_of script_dir) = true ->
    fst (get_glb_files (imports_of script_dir) w) = Ok (file_path :: rest) ->
    ensure_dirs (stage_dirs script_dir) (fs w) = Raise e ->
    fst (process_glb_file tool file_path script_dir
           (loop_start script_dir w (file_path :: rest))) = Ok false
    /\ forall p, In p rest ->
                 In (Print ("Processing: " ++ name p))
                    (trace (snd (run_script tool script_dir w))).

End Statements.

(** ** Sample worlds

    A small installation under [/srv/app], used to run the definitions. *)

Module Sample.

Definition app : Path := ["srv"; "app"].
Definition imports : Path := app // "data" // "imports".
Definition exports : Path := app // "data" // "exports".

(** An imports directory with two assets, listed out of order, next to a text
    file, a directory named like an asset and a dot file named [.glb]. *)
Definition tree : FS :=
  [ (["srv"], Directory);
    (app, Directory);
    (app // "data", Directory);
    (imports, Directory);
    (imports // "b.GLB", RegularFile);
    (imports // "notes.txt", RegularFile);
    (imports // "a.glb", RegularFile);
    (imports // "sub.glb", Directory);
    (imports // ".glb", RegularFile) ].

(** The same, with a regular file where the exports directory should be. *)
Definition tree_blocked : FS := (tree ++ [(exports, RegularFile)])%list.

(** Only the application directory: no [data/imports]. *)
Definition tree_bare : FS := [ (["srv"], Directory); (app, Directory) ].

(** An imports directory without any asset. *)
Definition tree_empty : FS :=
  [ (["srv"], Directory); (app, Directory); (app // "data", Directory);
    (imports, Directory); (imports // "notes.txt", RegularFile) ].

Definition start (f : FS) : World := mkWorld f [].

(** A tool that always succeeds, one that always fails, one that fails on
    the [webp] step of [b.GLB] only, and one that is not installed. *)
Definition tool_ok : Tool := fun _ f _ => Exited 0 "done" "" f.

Definition tool_failing : Tool := fun _ f _ => Exited 2 "" " bad asset " f.

Definition tool_webp_b : Tool :=
  fun _ f argv =>
    if String.eqb (nth 1 argv "") "webp"
       && String.eqb (nth 3 argv "") (str (exports // "webp" // "b.GLB"))
    then Exited 1 "" "cannot encode" f
    else Exited 0 "" "" f.

Definition tool_missing : Tool := fun _ _ _ => ExecNotFound.

End Sample.

(** ** Further vocabulary: file systems and tools *)

(** [f'] is [f] with directories added at its end. *)
Definition only_adds_dirs (f f' : FS) : Prop :=
  exists added,
    f' = (f ++ added)%list /\ Forall (fun entry => snd entry = Directory) added.

(** Tools by what they do: one that leaves the file system as it is, one
    whose every call exits with status 0, one whose every call fails for
    [run_command] (the executable is missing, or exits with another
    status). *)
Definition inert (tool : Tool) : Prop :=
  forall tr f argv f', left_behind (tool tr f argv) = Some f' -> f' = f.

Definition always_succeeds (tool : Tool) : Prop :=
  forall tr f argv, exists out err f', tool tr f argv = Exited 0 out err f'.

Definition never_succeeds (tool : Tool) : Prop :=
  forall tr f argv,
    match tool tr f argv with
    | Exited rc _ _ _ => rc <> 0%Z
    | ExecNotFound => True
    | ExecDenied | ExecOSError | Undecodable _ => False
    end.

(** The commands of all the steps of the files, and of their first steps
    only, in the order of the files. *)
Definition all_steps (base_dir : Path) (glb_files : list Path) : list (list string) :=
  flat_map (fun p => map fst (pipeline_steps p base_dir)) glb_files.

Definition first_steps (base_dir : Path) (glb_files : list Path) : list (list string) :=
  map (fun p => hd [] (map fst (pipeline_steps p base_dir))) glb_files.

(** The commands spawned for a list of steps, with the answer of the steps:
    each command in turn as long as the one before exited with status 0;
    [True] when all did, [False] after one that exited with another status
    or was not found, and the exception of a call that raised another one. *)
Inductive steps_shape :
  list (list string) -> list (list string * spawn_status) -> res bool -> Prop :=
| steps_done : steps_shape [] [] (Ok true)
| steps_next argv rest sp r :
    steps_shape rest sp r ->
    steps_shape (argv :: rest) ((argv, ExitStatus 0) :: sp) r
| steps_failed argv rest rc :
    rc <> 0%Z ->
    steps_shape (argv :: rest) [(argv, ExitStatus rc)] (Ok false)
| steps_missing argv rest :
    steps_shape (argv :: rest) [(argv, NotFound)] (Ok false)
| steps_escaped argv rest e :
    unhandled e = true ->
    steps_shape (argv :: rest) [(argv, Escaped e)] (Raise e).

(** What [run_command] answers, by the way its command ended. *)
Inductive command_outcome : spawn_status -> res bool -> Prop :=
| outcome_success : command_outcome (ExitStatus 0) (Ok true)
| outcome_failure rc : rc <> 0%Z -> command_outcome (ExitStatus rc) (Ok false)
| outcome_missing : command_outcome NotFound (Ok false)
| outcome_escaped e : unhandled e = true -> command_outcome (Escaped e) (Raise e).

Section FurtherStatements.

Variable tool : Tool.

(** The step executor as claimed never to abort: it answers, whatever comes
    of starting the command. *)
Definition executor_always_answers (command : list string) (description : string)
           (w : World) : Prop :=
  returned (fst (run_command tool command description w)).

(** The stage directories as claimed to be there after the pipeline of any
    file it is invoked on. *)
Definition stage_dirs_always_there (input_file base_dir : Path) (w : World) : Prop :=
  Forall (fun d => is_dir (fs (snd (process_glb_file tool input_file base_dir w))) d
                   = true)
         (stage_dirs base_dir).

End FurtherStatements.

(** A file system in which [data/imports] is a regular file, and the sample
    tree with its entries listed in another order. *)
Module MoreSamples.

(** A tool that is installed but may not be executed. *)
Definition tool_denied : Tool := fun _ _ _ => ExecDenied.

Definition tree_imports_file : FS :=
  [ (["srv"], Directory); (Sample.app, Directory);
    (Sample.app // "data", Directory); (Sample.imports, RegularFile) ].

Definition tree_shuffled : FS :=
  [ (Sample.imports // ".glb", RegularFile);
    (Sample.imports // "a.glb", RegularFile);
    (["srv"], Directory);
    (Sample.imports // "sub.glb", Directory);
    (Sample.app, Directory);
    (Sample.imports // "notes.txt", RegularFile);
    (Sample.app // "data", Directory);
    (Sample.imports // "b.GLB", RegularFile);
    (Sample.imports, Directory) ].

(** The sample tree with the three stage directories in place. *)
Definition tree_exported : FS :=
  (Sample.tree
   ++ [ (Sample.exports, Directory);
        (Sample.exports // "resize", Directory);
        (Sample.exports // "webp", Directory);
        (Sample.exports // "draco", Directory) ])%list.

End MoreSamples.

(** * Properties *)

Local Open Scope list_scope.

(** ** Paths *)

Lemma path_eqb_eq (p q : Path) : path_eqb p q = true <-> p = q.
Proof.
  revert q; induction p as [|a p IH]; intros [|b q]; simpl; split;
    try congruence; try reflexivity.
  - rewrite andb_true_iff, String.eqb_eq, IH. intros [-> ->]; reflexivity.
  - intros H; injection H as -> ->.
    rewrite andb_true_iff, String.eqb_eq, IH; split; reflexivity.
Qed.

Lemma path_eqb_refl (p : Path) : path_eqb p p = true.
Proof. apply path_eqb_eq; reflexivity. Qed.

Lemma truediv_segment (p : Path) (seg : string) :
  seg <> "" -> p // seg = (p ++ [seg])%list.
Proof.
  intros H. unfold truediv.
  destruct (String.eqb_spec seg ""); [contradiction | reflexivity].
Qed.

Lemma name_child (p : Path) (seg : string) : name (p ++ [seg])%list = seg.
Proof. unfold name. apply last_last. Qed.

Lemma parent_child (p : Path) (seg : string) : parent (p ++ [seg])%list = p.
Proof. unfold parent. apply removelast_last. Qed.

Lemma child_of_spec (d p : Path) :
  child_of d p = true <-> p = (d ++ [name p])%list.
Proof.
  unfold child_of. destruct p as [|a p].
  - split; [discriminate | intros H; destruct d; discriminate].
  - rewrite path_eqb_eq. split.
    + intros <-. apply (app_removelast_last ""). discriminate.
    + intros H. rewrite H at 1. apply parent_child.
Qed.

Lemma stage_dir_truediv (base_dir : Path) (stage : string) :
  stage <> "" -> base_dir // "data" // "exports" // stage = stage_dir base_dir stage.
Proof.
  intros H. unfold stage_dir.
  rewrite (truediv_segment _ stage H). cbn [truediv String.eqb].
  rewrite <- !app_assoc. reflexivity.
Qed.

(** The output of a stage for a named input: its directory and its name. *)
Lemma stage_output (base_dir input_file : Path) (stage : string) :
  stage <> "" -> name input_file <> "" ->
  base_dir // "data" // "exports" // stage // name input_file
  = (stage_dir base_dir stage ++ [name input_file])%list.
Proof.
  intros Hs Hn. rewrite (truediv_segment _ _ Hn), stage_dir_truediv by exact Hs.
  reflexivity.
Qed.

(** ** The file system *)

Lemma lookup_app_some (f g : FS) (p : Path) (n : node) :
  lookup f p = Some n -> lookup (f ++ g) p = Some n.
Proof.
  induction f as [|[q m] f IH]; simpl; [discriminate|].
  destruct (path_eqb q p); auto.
Qed.

Lemma lookup_app_none (f g : FS) (p : Path) :
  lookup f p = None -> lookup (f ++ g) p = lookup g p.
Proof.
  induction f as [|[q m] f IH]; simpl; [reflexivity|].
  destruct (path_eqb q p); [discriminate | auto].
Qed.

Lemma stat_app_some (f g : FS) (p : Path) (n : node) :
  stat f p = Some n -> stat (f ++ g) p = Some n.
Proof.
  destruct p; simpl; [auto|]. apply lookup_app_some.
Qed.

Lemma is_dir_app (f g : FS) (p : Path) :
  is_dir f p = true -> is_dir (f ++ g) p = true.
Proof.
  unfold is_dir. destruct (stat f p) as [[]|] eqn:E; try discriminate;
    rewrite (stat_app_some _ g _ _ E); reflexivity.
Qed.

Lemma keeps_dirs_refl (f : FS) : keeps_dirs f f.
Proof. intros p H; exact H. Qed.

Lemma keeps_dirs_trans (f g h : FS) :
  keeps_dirs f g -> keeps_dirs g h -> keeps_dirs f h.
Proof. intros H1 H2 p H; auto. Qed.

Lemma os_mkdir_ok (p : Path) (f f' : FS) :
  os_mkdir p f = Ok f' -> is_dir f' p = true /\ keeps_dirs f f'.
Proof.
  unfold os_mkdir.
  destruct (stat f p) eqn:Ep; [discriminate|].
  destruct (stat f (parent p)) as [[]|]; try discriminate.
  intros H; injection H as <-. split.
  - unfold is_dir. destruct p as [|a p]; [discriminate|].
    cbn [stat] in *. rewrite lookup_app_none by exact Ep.
    cbn [lookup]. rewrite path_eqb_refl. reflexivity.
  - intros q Hq. apply is_dir_app; exact Hq.
Qed.

Lemma mkdir_exist_ok_ok (p : Path) (f f' : FS) :
  mkdir_exist_ok p f = Ok f' -> is_dir f' p = true /\ keeps_dirs f f'.
Proof.
  unfold mkdir_exist_ok.
  destruct (os_mkdir p f) as [f1|e] eqn:E.
  - intros H; injection H as <-. apply os_mkdir_ok; exact E.
  - destruct e; try discriminate;
      (destruct (is_dir f p) eqn:D; [|discriminate]);
      intros H; injection H as <-; split; auto using keeps_dirs_refl.
Qed.

Lemma mkdir_parents_rev_ok (rp : list string) :
  forall f f', mkdir_parents_rev rp f = Ok f' ->
               is_dir f' (rev rp) = true /\ keeps_dirs f f'.
Proof.
  induction rp as [|a rp IH]; intros f f'; cbn [mkdir_parents_rev].
  - destruct (os_mkdir (rev []) f) as [f1|e] eqn:E.
    + intros H; injection H as <-. apply os_mkdir_ok; exact E.
    + destruct e; try discriminate;
        (destruct (is_dir f (rev [])) eqn:D; [|discriminate]);
        intros H; injection H as <-; split; auto using keeps_dirs_refl.
  - destruct (os_mkdir (rev (a :: rp)) f) as [f1|e] eqn:E.
    + intros H; injection H as <-. apply os_mkdir_ok; exact E.
    + destruct e;
        try (destruct (is_dir f (rev (a :: rp))) eqn:D; [|discriminate];
             intros H; injection H as <-; split; auto using keeps_dirs_refl).
      destruct (mkdir_parents_rev rp f) as [f1|e1] eqn:E1; [|discriminate].
      intros H. apply mkdir_exist_ok_ok in H. destruct H as [H1 H2].
      split; [exact H1|].
      apply keeps_dirs_trans with f1; [apply (IH _ _ E1) | exact H2].
Qed.

Lemma mkdir_parents_ok (p : Path) (f f' : FS) :
  mkdir_parents p f = Ok f' -> is_dir f' p = true /\ keeps_dirs f f'.
Proof.
  unfold mkdir_parents. intros H. apply mkdir_parents_rev_ok in H.
  rewrite rev_involutive in H. exact H.
Qed.

(** A directory that is there already is left as it is. *)
Lemma mkdir_parents_present (p : Path) (f : FS) :
  is_dir f p = true -> mkdir_parents p f = Ok f.
Proof.
  unfold mkdir_parents. intros H.
  rewrite <- (rev_involutive p) in H. revert H.
  generalize (rev p) as rp. intros rp H.
  assert (E : os_mkdir (rev rp) f = Raise FileExistsError).
  { unfold os_mkdir. unfold is_dir in H.
    destruct (stat f (rev rp)); [reflexivity | discriminate]. }
  destruct rp; cbn [mkdir_parents_rev]; rewrite E, H; reflexivity.
Qed.

Lemma ensure_dirs_ok (dirs : list Path) :
  forall f f', ensure_dirs dirs f = Ok f' ->
               Forall (fun d => is_dir f' d = true) dirs /\ keeps_dirs f f'.
Proof.
  induction dirs as [|d dirs IH]; intros f f'; cbn [ensure_dirs].
  - intros H; injection H as <-. split; [constructor | apply keeps_dirs_refl].
  - destruct (mkdir_parents d f) as [f1|] eqn:E; [|discriminate].
    intros H. apply IH in H. destruct H as [H1 H2].
    apply mkdir_parents_ok in E. destruct E as [E1 E2].
    split; [constructor; auto | eapply keeps_dirs_trans; eauto].
Qed.

(** ** The step executor *)

Section Executor.

Variable tool : Tool.

Ltac run_monad :=
  unfold run_command, try_except, subprocess_run, bind, ret, when, print, emit,
    raise, sys_exit, query, mkdir, extend;
  cbn [fs trace stdout stderr returncode fst snd].

(** What [run_command] does, by the answer of the tool. *)
Lemma run_command_eq (command : list string) (description : string) (w : World) :
  run_command tool command description w =
  let tr := trace w ++ announcement command description in
  match tool tr (fs w) command with
  | Exited rc out err f' =>
      if (rc =? 0)%Z
      then (Ok true,
            mkWorld f' (tr ++ Spawn command (ExitStatus rc)
                           :: success_report description out))
      else (Ok false,
            mkWorld f' (tr ++ Spawn command (ExitStatus rc)
                           :: failure_report description rc out err))
  | ExecNotFound =>
      (Ok false, mkWorld (fs w) (tr ++ Spawn command NotFound :: unavailable_report))
  | ExecDenied =>
      (Raise PermissionError,
       mkWorld (fs w) (tr ++ [Spawn command (Escaped PermissionError)]))
  | ExecOSError =>
      (Raise OSError, mkWorld (fs w) (tr ++ [Spawn command (Escaped OSError)]))
  | Undecodable f' =>
      (Raise UnicodeDecodeError,
       mkWorld f' (tr ++ [Spawn command (Escaped UnicodeDecodeError)]))
  end.
Proof.
  run_monad. unfold announcement. cbn zeta.
  rewrite <- !app_assoc. cbn [app].
  destruct (tool _ (fs w) command) as [rc out err f'| | | |f'].
  - destruct (rc =? 0)%Z; cbn [fs trace stdout].
    + unfold success_report, captured.
      destruct (Py.truthy out); run_monad;
        rewrite <- ?app_assoc; reflexivity.
    + unfold failure_report, captured.
      destruct (Py.truthy out), (Py.truthy err); run_monad;
        rewrite <- ?app_assoc; reflexivity.
  - cbn [fs trace]. rewrite <- ?app_assoc. reflexivity.
  - cbn [fs trace]. rewrite <- ?app_assoc. reflexivity.
  - cbn [fs trace]. rewrite <- ?app_assoc. reflexivity.
  - cbn [fs trace]. rewrite <- ?app_assoc. reflexivity.
Qed.

End Executor.

(** ** Traces *)

Lemma spawned_app (tr1 tr2 : list event) :
  spawned (tr1 ++ tr2) = spawned tr1 ++ spawned tr2.
Proof.
  induction tr1 as [|[] tr1 IH]; cbn [spawned app]; rewrite ?IH; reflexivity.
Qed.

Lemma spawned_mkdirs (dirs : list Path) : spawned (map Mkdir dirs) = [].
Proof. induction dirs; cbn [map spawned]; auto. Qed.

Lemma spawned_captured (label s : string) : spawned (captured label s) = [].
Proof. unfold captured. destruct (Py.truthy s); reflexivity. Qed.

Lemma spawned_listing (glb_files : list Path) : spawned (listing glb_files) = [].
Proof.
  unfold listing. cbn [spawned].
  induction glb_files; cbn [map spawned]; auto.
Qed.

(** ** Creating the directories *)

Lemma for_each_mkdir_ok (dirs : list Path) :
  forall w f', ensure_dirs dirs (fs w) = Ok f' ->
               for_each dirs mkdir w = (Ok tt, mkWorld f' (trace w ++ map Mkdir dirs)).
Proof.
  induction dirs as [|d dirs IH]; intros w f'; cbn [ensure_dirs for_each map].
  - intros H; injection H as <-. unfold ret. rewrite app_nil_r.
    destruct w; reflexivity.
  - unfold bind. unfold mkdir at 1.
    destruct (mkdir_parents d (fs w)) as [f1|] eqn:E; [|discriminate].
    intros H. cbv beta iota.
    rewrite (IH (mkWorld f1 (trace w ++ [Mkdir d])) f' H).
    cbn [trace]. rewrite <- app_assoc. reflexivity.
Qed.

Lemma for_each_mkdir_raise (dirs : list Path) :
  forall w e, ensure_dirs dirs (fs w) = Raise e ->
              exists w1 made,
                for_each dirs mkdir w = (Raise e, w1)
                /\ trace w1 = trace w ++ map Mkdir made
                /\ keeps_dirs (fs w) (fs w1).
Proof.
  induction dirs as [|d dirs IH]; intros w e; cbn [ensure_dirs for_each].
  - discriminate.
  - unfold bind. unfold mkdir at 1.
    destruct (mkdir_parents d (fs w)) as [f1|e1] eqn:E.
    + intros H.
      destruct (IH (mkWorld f1 (trace w ++ [Mkdir d])) e H)
        as (w1 & made & H1 & H2 & H3).
      exists w1, (d :: made). cbv beta iota. rewrite H1. split; [reflexivity|].
      cbn [trace fs map] in *. rewrite H2, <- app_assoc. split; [reflexivity|].
      apply mkdir_parents_ok in E. eapply keeps_dirs_trans; [apply E | exact H3].
    + intros H; injection H as <-.
      exists w, []. cbn [map]. rewrite app_nil_r.
      repeat split. apply keeps_dirs_refl.
Qed.

(** ** The steps of a file *)

Section Pipeline.

Variable tool : Tool.

(** [run_command] spawns one command, and answers or raises by the way the
    command ended. *)
Lemma run_command_cases (command : list string) (description : string) (w : World) :
  exists r st f' evs,
    run_command tool command description w
    = (r, mkWorld f' (trace w ++ evs))
    /\ spawned evs = [(command, st)]
    /\ command_outcome st r
    /\ (preserves_dirs tool -> keeps_dirs (fs w) f').
Proof.
  rewrite run_command_eq. cbn zeta.
  destruct (tool _ (fs w) command) as [rc out err f'| | | |f'] eqn:E.
  - destruct (Z.eqb_spec rc 0) as [->|Hrc].
    + exists (Ok true), (ExitStatus 0), f',
        (announcement command description
         ++ Spawn command (ExitStatus 0) :: success_report description out).
      rewrite <- app_assoc. split; [reflexivity|]. split.
      { rewrite spawned_app. unfold success_report. cbn [spawned app].
        rewrite spawned_captured. reflexivity. }
      split; [constructor|]. intros H. apply (H (trace w ++ announcement command description) (fs w) command).
      rewrite E. reflexivity.
    + exists (Ok false), (ExitStatus rc), f',
        (announcement command description
         ++ Spawn command (ExitStatus rc) :: failure_report description rc out err).
      rewrite <- app_assoc. split; [reflexivity|]. split.
      { rewrite spawned_app. unfold failure_report. cbn [spawned app].
        rewrite spawned_app, !spawned_captured. reflexivity. }
      split; [constructor; exact Hrc|].
      intros H. apply (H (trace w ++ announcement command description) (fs w) command).
      rewrite E. reflexivity.
  - exists (Ok false), NotFound, (fs w),
      (announcement command description
       ++ Spawn command NotFound :: unavailable_report).
    rewrite <- app_assoc. split; [reflexivity|]. split; [reflexivity|].
    split; [constructor | intros _; apply keeps_dirs_refl].
  - exists (Raise PermissionError), (Escaped PermissionError), (fs w),
      (announcement command description ++ [Spawn command (Escaped PermissionError)]).
    rewrite <- app_assoc. split; [reflexivity|]. split; [reflexivity|].
    split; [constructor; reflexivity | intros _; apply keeps_dirs_refl].
  - exists (Raise OSError), (Escaped OSError), (fs w),
      (announcement command description ++ [Spawn command (Escaped OSError)]).
    rewrite <- app_assoc. split; [reflexivity|]. split; [reflexivity|].
    split; [constructor; reflexivity | intros _; apply keeps_dirs_refl].
  - exists (Raise UnicodeDecodeError), (Escaped UnicodeDecodeError), f',
      (announcement command description
       ++ [Spawn command (Escaped UnicodeDecodeError)]).
    rewrite <- app_assoc. split; [reflexivity|]. split; [reflexivity|].
    split; [constructor; reflexivity|].
    intros H. apply (H (trace w ++ announcement command description) (fs w) command).
      rewrite E. reflexivity.
Qed.

Lemma run_steps_spec (steps : list (list string * string)) :
  forall w, exists r f' evs,
    run_steps tool steps w = (r, mkWorld f' (trace w ++ evs))
    /\ steps_shape (map fst steps) (spawned evs) r
    /\ (preserves_dirs tool -> keeps_dirs (fs w) f').
Proof.
  induction steps as [|[argv description] steps IH]; intros w; cbn [run_steps map fst].
  - exists (Ok true), (fs w), []. rewrite app_nil_r. unfold ret.
    split; [destruct w; reflexivity|]. split; [constructor|].
    intros _; apply keeps_dirs_refl.
  - unfold bind.
    destruct (run_command_cases argv description w)
      as (r & st & f1 & evs1 & Hrun & Hsp & Hout & Hk).
    rewrite Hrun. destruct Hout as [|rc Hrc| |e He]; cbn [negb].
    + destruct (IH (mkWorld f1 (trace w ++ evs1))) as (r2 & f2 & evs2 & H2 & S2 & K2).
      exists r2, f2, (evs1 ++ evs2). rewrite H2. cbn [trace fs] in *.
      rewrite <- app_assoc. split; [reflexivity|]. split.
      * rewrite spawned_app, Hsp. cbn [app]. constructor; exact S2.
      * intros H. eapply keeps_dirs_trans; eauto.
    + exists (Ok false), f1, evs1. unfold ret. split; [reflexivity|].
      split; [rewrite Hsp; constructor; exact Hrc | exact Hk].
    + exists (Ok false), f1, evs1. unfold ret. split; [reflexivity|].
      split; [rewrite Hsp; constructor | exact Hk].
    + exists (Raise e), f1, evs1. split; [reflexivity|].
      split; [rewrite Hsp; constructor; exact He | exact Hk].
Qed.

(** [process_glb_file], piece by piece. *)
Lemma process_glb_file_eq (input_file base_dir : Path) (w : World) :
  process_glb_file tool input_file base_dir w =
  match for_each (output_dirs input_file base_dir) mkdir (extend w (banner input_file)) with
  | (Raise e, w1) => (Raise e, w1)
  | (Ok _, w1) =>
      match run_steps tool (pipeline_steps input_file base_dir) w1 with
      | (Ok true, w2) =>
          (Ok true,
           extend w2 [Print ("✓ Successfully processed: " ++ name input_file)%string])
      | other => other
      end
  end.
Proof.
  unfold process_glb_file, output_dirs, pipeline_steps, banner, output_of.
  cbn [for_each run_steps].
  unfold bind at 1 2 3. unfold print at 1 2 3. unfold emit, extend.
  cbn [fs trace]. rewrite <- !app_assoc. cbn [app].
  unfold bind.
  repeat (match goal with
          | |- context [mkdir ?d ?w0] =>
              destruct (mkdir d w0) as [[[]|?] ?]
          | |- context [run_command tool ?c ?d ?w0] =>
              destruct (run_command tool c d w0) as [[[]|?] ?]
          end;
          cbn [negb]; cbv beta iota; unfold ret; try reflexivity).
Qed.

End Pipeline.

(** ** Shapes of the spawned commands *)

(** With the exception of a command that escapes, or the answer. *)
Lemma steps_shape_returned cmds sp b :
  steps_shape cmds sp (Ok b) -> step_run cmds sp b.
Proof.
  intros H. remember (Ok b) as r eqn:E. revert b E.
  induction H as [|argv rest sp r _ IH|argv rest rc Hrc|argv rest|argv rest e He];
    intros b E.
  - injection E as <-. constructor.
  - constructor. apply IH. exact E.
  - injection E as <-. constructor. intros H. injection H as H. contradiction.
  - injection E as <-. constructor. discriminate.
  - discriminate E.
Qed.

Lemma steps_shape_raised cmds sp e :
  steps_shape cmds sp (Raise e) -> unhandled e = true.
Proof.
  intros H. remember (Raise e) as r eqn:E.
  induction H as [|argv rest sp r _ IH|argv rest rc Hrc|argv rest|argv rest e' He];
    try discriminate E; auto.
  injection E as <-. exact He.
Qed.

Lemma steps_shape_prefix cmds sp r :
  steps_shape cmds sp r -> exists rest, cmds = map fst sp ++ rest.
Proof.
  induction 1 as [|argv rest sp r _ [rest' IH]|argv rest rc Hrc|argv rest|argv rest e He].
  - exists []; reflexivity.
  - exists rest'. cbn [map fst app]. rewrite IH at 1. reflexivity.
  - exists rest; reflexivity.
  - exists rest; reflexivity.
  - exists rest; reflexivity.
Qed.


Lemma steps_shape_true cmds sp r :
  steps_shape cmds sp r ->
  (r = Ok true <-> sp = map (fun argv => (argv, ExitStatus 0)) cmds).
Proof.
  induction 1 as [|argv rest sp r _ IH|argv rest rc Hrc|argv rest|argv rest e He];
    cbn [map].
  - tauto.
  - rewrite IH. split; [intros ->; reflexivity | intros E; injection E; auto].
  - split; [discriminate | intros E; injection E as -> _; contradiction].
  - split; [discriminate | intros E; discriminate E].
  - split; [discriminate | intros E; discriminate E].
Qed.

Lemma steps_shape_started cmds sp r :
  steps_shape cmds sp r -> cmds <> [] -> sp <> [].
Proof.
  intros Hs Hne. destruct Hs; try discriminate. contradiction.
Qed.

Lemma steps_shape_length cmds sp r :
  steps_shape cmds sp r -> List.length sp <= List.length cmds.
Proof.
  induction 1; cbn [List.length]; lia.
Qed.



(** ** The per-file pipeline as a whole *)

Section PipelineCases.

Variable tool : Tool.

(** Either a directory cannot be created, and the pipeline raises before
    any command is spawned; or the three directories are ensured and the
    steps run in order, each one after the success of the one before, up to
    the answer of the pipeline or the exception that leaves it. *)
Lemma pipeline_shape (input_file base_dir : Path) (w : World) :
  let dirs := output_dirs input_file base_dir in
  (exists e w1 made,
      ensure_dirs dirs (fs w) = Raise e
      /\ process_glb_file tool input_file base_dir w = (Raise e, w1)
      /\ trace w1 = trace w ++ banner input_file ++ map Mkdir made
      /\ keeps_dirs (fs w) (fs w1))
  \/ (exists f1 r f' evs,
         ensure_dirs dirs (fs w) = Ok f1
         /\ process_glb_file tool input_file base_dir w
            = (r, mkWorld f' (trace w ++ banner input_file
                                ++ map Mkdir dirs ++ evs))
         /\ steps_shape (map fst (pipeline_steps input_file base_dir)) (spawned evs) r
         /\ (preserves_dirs tool -> keeps_dirs f1 f')).
Proof.
  intros dirs. rewrite process_glb_file_eq. fold dirs.
  destruct (ensure_dirs dirs (fs w)) as [f1|e] eqn:E.
  - right.
    rewrite (for_each_mkdir_ok dirs (extend w (banner input_file)) f1 E).
    cbn [extend trace fs].
    destruct (run_steps_spec tool (pipeline_steps input_file base_dir)
                (mkWorld f1 ((trace w ++ banner input_file) ++ map Mkdir dirs)))
      as (r & f' & evs & Hrun & Hsteps & Hk).
    rewrite Hrun. cbn [trace fs] in *. destruct r as [[]|e].
    + exists f1, (Ok true), f',
        (evs ++ [Print ("✓ Successfully processed: " ++ name input_file)%string]).
      unfold extend. cbn [fs trace]. rewrite <- !app_assoc.
      repeat split; auto.
      rewrite spawned_app. cbn [spawned]. rewrite app_nil_r. exact Hsteps.
    + exists f1, (Ok false), f', evs. rewrite <- !app_assoc. repeat split; auto.
    + exists f1, (Raise e), f', evs. rewrite <- !app_assoc. repeat split; auto.
  - left.
    destruct (for_each_mkdir_raise dirs (extend w (banner input_file)) e E)
      as (w1 & made & H1 & H2 & H3).
    exists e, w1, made. rewrite H1. cbn [extend trace fs] in *.
    rewrite H2, <- app_assoc. repeat split; auto.
Qed.

(** The same, with the answer of the pipeline apart from the exception of a
    command. *)
Lemma pipeline_cases (input_file base_dir : Path) (w : World) :
  let dirs := output_dirs input_file base_dir in
  (exists e w1 made,
      ensure_dirs dirs (fs w) = Raise e
      /\ process_glb_file tool input_file base_dir w = (Raise e, w1)
      /\ trace w1 = trace w ++ banner input_file ++ map Mkdir made
      /\ keeps_dirs (fs w) (fs w1))
  \/ (exists f1 b f' evs,
         ensure_dirs dirs (fs w) = Ok f1
         /\ process_glb_file tool input_file base_dir w
            = (Ok b, mkWorld f' (trace w ++ banner input_file
                                   ++ map Mkdir dirs ++ evs))
         /\ step_run (map fst (pipeline_steps input_file base_dir)) (spawned evs) b
         /\ (preserves_dirs tool -> keeps_dirs f1 f'))
  \/ (exists f1 e f' evs,
         ensure_dirs dirs (fs w) = Ok f1
         /\ process_glb_file tool input_file base_dir w
            = (Raise e, mkWorld f' (trace w ++ banner input_file
                                      ++ map Mkdir dirs ++ evs))
         /\ unhandled e = true
         /\ steps_shape (map fst (pipeline_steps input_file base_dir))
                        (spawned evs) (Raise e)
         /\ (preserves_dirs tool -> keeps_dirs f1 f')).
Proof.
  intros dirs.
  destruct (pipeline_shape input_file base_dir w)
    as [H|(f1 & [b|e] & f' & evs & Hd & Hrun & Hsteps & Hk)].
  - left. exact H.
  - right; left. exists f1, b, f', evs.
    repeat split; auto using steps_shape_returned.
  - right; right. exists f1, e, f', evs.
    repeat split; eauto using steps_shape_raised.
Qed.

End PipelineCases.

(** ** The step executor: success, failure, tool missing *)

Lemma captured_shown (label s : string) :
  s <> ""%string -> In (Print (label ++ Py.strip s)%string) (captured label s).
Proof.
  intros H. unfold captured, Py.truthy.
  destruct (String.eqb_spec s ""); [contradiction | left; reflexivity].
Qed.

(** C5, as claimed, fails for a tool that is installed but cannot be started:
    the error of the launch is not the one [run_command] has a clause for, so
    it leaves [run_command] and [process_glb_file] as it is, and the run ends
    with exit status 1 after this one command, without taking up the second
    file. *)
Lemma executor_aborts_when_denied :
  run_command MoreSamples.tool_denied ["gltf-transform"; "resize"] "Resize a.glb"
              (Sample.start Sample.tree)
  = (Raise PermissionError,
     mkWorld Sample.tree
             [Print "Running: Resize a.glb";
              Print "Command: gltf-transform resize";
              Spawn ["gltf-transform"; "resize"] (Escaped PermissionError)])
  /\ ~ executor_always_answers MoreSamples.tool_denied
        ["gltf-transform"; "resize"] "Resize a.glb" (Sample.start Sample.tree)
  /\ fst (run_script MoreSamples.tool_denied Sample.app (Sample.start Sample.tree))
     = 1%Z
  /\ map snd (spawned (trace (snd (run_script MoreSamples.tool_denied Sample.app
                                     (Sample.start Sample.tree)))))
     = [Escaped PermissionError].
Proof.
  split; [vm_compute; reflexivity|]. split; [|split; vm_compute; reflexivity].
  intros [b H]. vm_compute in H. discriminate H.
Qed.

(** C5, amended: [run_command] answers success exactly when the spawned
    process exits with status 0.  After a non-zero exit it prints the failure
    with the return code and the captured output and error streams (each when
    it is not empty) and answers failure; when the executable is not found it
    prints the tool-not-found message, a different report, and answers
    failure as well.  These are the only cases in which it returns to its
    caller: when the executable cannot be started for another reason
    (permission denied, another error of the operating system) or the
    captured output cannot be decoded, the exception leaves [run_command]
    with nothing reported after the command. *)
Theorem run_command_outcome (tool : Tool) (command : list string)
        (description : string) (w : World) :
  let tr := trace w ++ announcement command description in
  let answer := tool tr (fs w) command in
  let result := run_command tool command description w in
  (fst result = Ok true <-> exists out err f', answer = Exited 0 out err f')
  /\ (forall rc out err f',
         answer = Exited rc out err f' -> rc <> 0%Z ->
         result = (Ok false,
                   mkWorld f' (tr ++ Spawn command (ExitStatus rc)
                                  :: failure_report description rc out err))
         /\ (out <> ""%string ->
             In (Print ("Stdout: " ++ Py.strip out)%string)
                (failure_report description rc out err))
         /\ (err <> ""%string ->
             In (Print ("Stderr: " ++ Py.strip err)%string)
                (failure_report description rc out err)))
  /\ (answer = ExecNotFound ->
      result = (Ok false,
                mkWorld (fs w) (tr ++ Spawn command NotFound :: unavailable_report)))
  /\ (forall rc out err, failure_report description rc out err <> unavailable_report)
  /\ (returned (fst result)
      <-> (exists rc out err f', answer = Exited rc out err f')
          \/ answer = ExecNotFound)
  /\ (answer = ExecDenied ->
      result = (Raise PermissionError,
                mkWorld (fs w) (tr ++ [Spawn command (Escaped PermissionError)])))
  /\ (answer = ExecOSError ->
      result = (Raise OSError,
                mkWorld (fs w) (tr ++ [Spawn command (Escaped OSError)])))
  /\ (forall f',
         answer = Undecodable f' ->
         result = (Raise UnicodeDecodeError,
                   mkWorld f' (tr ++ [Spawn command (Escaped UnicodeDecodeError)])))
  /\ (forall e, fst result = Raise e -> unhandled e = true).
Proof.
  intros tr answer result. subst result answer tr. rewrite run_command_eq.
  cbn zeta.
  generalize (tool (trace w ++ announcement command description) (fs w) command).
  generalize (trace w ++ announcement command description).
  intros tr answer.
  split; [|split; [|split; [|split; [|split; [|split; [|split; [|split]]]]]]].
  - split.
    + destruct answer as [rc out err f'| | | |f'];
        try (cbn [fst]; intros H; discriminate H).
      destruct (Z.eqb_spec rc 0) as [->|Hrc];
        [eauto | cbn [fst]; intros H; discriminate H].
    + intros (out & err & f' & ->). reflexivity.
  - intros rc out err f' -> Hrc.
    destruct (Z.eqb_spec rc 0); [contradiction|].
    split; [reflexivity|]. unfold failure_report. cbn [app]. split.
    + intros Hout. right; right. apply in_or_app; left.
      apply captured_shown; exact Hout.
    + intros Herr. right; right. apply in_or_app; right.
      apply captured_shown; exact Herr.
  - intros ->. reflexivity.
  - intros rc out err. unfold failure_report, unavailable_report.
    cbn [app]. intros H. discriminate H.
  - split.
    + destruct answer as [rc out err f'| | | |f']; cbn [fst]; intros [b H];
        try discriminate H; [left; eauto | right; reflexivity].
    + intros [(rc & out & err & f' & ->)| ->];
        [destruct (rc =? 0)%Z|]; eexists; reflexivity.
  - intros ->. reflexivity.
  - intros ->. reflexivity.
  - intros f' ->. reflexivity.
  - destruct answer as [rc out err f'| | | |f']; [destruct (rc =? 0)%Z| | | |];
      cbn [fst]; intros e H; try discriminate H; injection H as <-; reflexivity.
Qed.

Lemma run_command_outcome_witness :
  run_command Sample.tool_failing ["gltf-transform"; "resize"] "Resize a.glb"
              (Sample.start Sample.tree)
  = (Ok false,
     mkWorld Sample.tree
             [Print "Running: Resize a.glb";
              Print "Command: gltf-transform resize";
              Spawn ["gltf-transform"; "resize"] (ExitStatus 2);
              Print "✗ Error: Resize a.glb";
              Print "Return code: 2";
              Print "Stderr: bad asset"])
  /\ run_command Sample.tool_missing ["gltf-transform"; "resize"] "Resize a.glb"
                 (Sample.start Sample.tree)
     = (Ok false,
        mkWorld Sample.tree
                [Print "Running: Resize a.glb";
                 Print "Command: gltf-transform resize";
                 Spawn ["gltf-transform"; "resize"] NotFound;
                 Print "✗ Error: gltf-transform not found. Please ensure it's installed and in PATH."])
  /\ fst (run_command Sample.tool_ok ["gltf-transform"; "resize"] "Resize a.glb"
                      (Sample.start Sample.tree)) = Ok true
  /\ unhandled PermissionError = true.
Proof.
  split; [|split; [|split]].
  - apply (proj1 (proj1 (proj2 (run_command_outcome Sample.tool_failing
             ["gltf-transform"; "resize"] "Resize a.glb" (Sample.start Sample.tree)))
             2%Z ""%string " bad asset "%string Sample.tree eq_refl
             ltac:(discriminate))).
  - apply (proj1 (proj2 (proj2 (run_command_outcome Sample.tool_missing
             ["gltf-transform"; "resize"] "Resize a.glb" (Sample.start Sample.tree))))
             eq_refl).
  - apply (proj2 (proj1 (run_command_outcome Sample.tool_ok
             ["gltf-transform"; "resize"] "Resize a.glb" (Sample.start Sample.tree)))).
    exists "done"%string, ""%string, Sample.tree. reflexivity.
  - apply (proj2 (proj2 (proj2 (proj2 (proj2 (proj2 (proj2 (proj2
             (run_command_outcome MoreSamples.tool_denied
                ["gltf-transform"; "resize"] "Resize a.glb"
                (Sample.start Sample.tree))))))))) PermissionError).
    reflexivity.
Defined.

(** ** Order of the steps *)

Lemma process_files_failed (tool : Tool) (file_path : Path) (rest : list Path)
      (script_dir : Path) (successful failed : nat) (w w' : World) :
  process_glb_file tool file_path script_dir w = (Ok false, w') ->
  process_files tool (file_path :: rest) script_dir successful failed w
  = process_files tool rest script_dir successful (failed + 1)
      (extend w' [Print ("Failed to process: " ++ name file_path)%string]).
Proof.
  intros H. cbn [process_files]. unfold bind at 1. rewrite H.
  unfold bind, print, emit, extend. reflexivity.
Qed.

Lemma process_files_succeeded (tool : Tool) (file_path : Path) (rest : list Path)
      (script_dir : Path) (successful failed : nat) (w w' : World) :
  process_glb_file tool file_path script_dir w = (Ok true, w') ->
  process_files tool (file_path :: rest) script_dir successful failed w
  = process_files tool rest script_dir (successful + 1) failed w'.
Proof.
  intros H. cbn [process_files]. unfold bind at 1. rewrite H. reflexivity.
Qed.

Lemma process_files_raised (tool : Tool) (file_path : Path) (rest : list Path)
      (script_dir : Path) (successful failed : nat) (w w' : World) (e : exn) :
  process_glb_file tool file_path script_dir w = (Raise e, w') ->
  process_files tool (file_path :: rest) script_dir successful failed w
  = (Raise e, w').
Proof.
  intros H. cbn [process_files]. unfold bind at 1. rewrite H. reflexivity.
Qed.



(** ** Output paths *)

Lemma output_dirs_named (input_file base_dir : Path) :
  name input_file <> ""%string ->
  output_dirs input_file base_dir = stage_dirs base_dir.
Proof.
  intros H. unfold output_dirs, stage_dirs, output_of.
  rewrite !stage_output by (exact H || discriminate).
  rewrite !parent_child. reflexivity.
Qed.

(** C8: the three outputs of an input file depend on the script's directory
    and the file alone: each is the name of the input, unchanged, inside
    [data/exports/resize], [data/exports/webp] and [data/exports/draco] below
    the script's directory.  The commands spawned for the file are the first
    ones of: resize from the input to the first output, webp from the first
    output to the second, optimize from the second to the third; all three
    when the pipeline succeeds. *)
Theorem output_paths_chain (input_file base_dir : Path) :
  name input_file <> ""%string ->
  exists o1 o2 o3 : Path,
    (parent o1 = stage_dir base_dir "resize" /\ name o1 = name input_file)
    /\ (parent o2 = stage_dir base_dir "webp" /\ name o2 = name input_file)
    /\ (parent o3 = stage_dir base_dir "draco" /\ name o3 = name input_file)
    /\ forall (tool : Tool) (w : World),
        let run := process_glb_file tool input_file base_dir w in
        let commands :=
          [ ["gltf-transform"; "resize"; str input_file; str o1;
             "--width"; "1024"; "--height"; "1024"];
            ["gltf-transform"; "webp"; str o1; str o2; "--slots"; "baseColor"];
            ["gltf-transform"; "optimize"; str o2; str o3;
             "--texture-compress"; "webp"] ]%string in
        exists evs,
          trace (snd run) = trace w ++ evs
          /\ (exists rest, commands = map fst (spawned evs) ++ rest)
          /\ (fst run = Ok true -> map fst (spawned evs) = commands).
Proof.
  intros Hname.
  exists (stage_dir base_dir "resize" ++ [name input_file]),
         (stage_dir base_dir "webp" ++ [name input_file]),
         (stage_dir base_dir "draco" ++ [name input_file]).
  rewrite !parent_child, !name_child.
  repeat (split; [split; reflexivity|]).
  intros tool w run commands.
  assert (Hcmds : map fst (pipeline_steps input_file base_dir) = commands).
  { unfold pipeline_steps, output_of. cbn [map fst].
    rewrite !stage_output by (exact Hname || discriminate). reflexivity. }
  subst run.
  destruct (pipeline_shape tool input_file base_dir w)
    as [(e & w1 & made & _ & Hrun & Htr & _)
       |(f1 & r & f' & evs & _ & Hrun & Hsteps & _)]; rewrite Hrun; cbn [fst snd trace].
  - exists (banner input_file ++ map Mkdir made).
    rewrite spawned_app, spawned_mkdirs. cbn [spawned banner app map].
    split; [exact Htr|]. split; [exists commands; reflexivity|].
    intros H; discriminate H.
  - exists (banner input_file ++ map Mkdir (output_dirs input_file base_dir) ++ evs).
    rewrite !spawned_app, spawned_mkdirs. cbn [spawned banner app].
    rewrite Hcmds in Hsteps.
    split; [reflexivity|]. split; [exact (steps_shape_prefix _ _ _ Hsteps)|].
    intros H.
    rewrite (proj1 (steps_shape_true _ _ _ Hsteps) H).
    rewrite map_map. cbn [fst]. apply map_id.
Qed.

Lemma output_paths_chain_witness :
  exists o1 o2 o3 : Path,
    (str o1 = "/srv/app/data/exports/resize/a.glb"
     /\ str o2 = "/srv/app/data/exports/webp/a.glb"
     /\ str o3 = "/srv/app/data/exports/draco/a.glb")%string
    /\ map fst (spawned (trace (snd (process_glb_file Sample.tool_ok
                                       (Sample.imports // "a.glb") Sample.app
                                       (Sample.start Sample.tree)))))
       = [ ["gltf-transform"; "resize"; "/srv/app/data/imports/a.glb"; str o1;
            "--width"; "1024"; "--height"; "1024"];
           ["gltf-transform"; "webp"; str o1; str o2; "--slots"; "baseColor"];
           ["gltf-transform"; "optimize"; str o2; str o3;
            "--texture-compress"; "webp"] ]%string.
Proof.
  destruct (output_paths_chain (Sample.imports // "a.glb") Sample.app
              ltac:(discriminate))
    as (o1 & o2 & o3 & [P1 N1] & [P2 N2] & [P3 N3] & Hrun).
  exists o1, o2, o3.
  assert (E1 : o1 = Sample.exports // "resize" // "a.glb").
  { rewrite (app_removelast_last ""%string (l := o1)).
    - fold (parent o1) (name o1). rewrite P1, N1. reflexivity.
    - intros ->. discriminate N1. }
  assert (E2 : o2 = Sample.exports // "webp" // "a.glb").
  { rewrite (app_removelast_last ""%string (l := o2)).
    - fold (parent o2) (name o2). rewrite P2, N2. reflexivity.
    - intros ->. discriminate N2. }
  assert (E3 : o3 = Sample.exports // "draco" // "a.glb").
  { rewrite (app_removelast_last ""%string (l := o3)).
    - fold (parent o3) (name o3). rewrite P3, N3. reflexivity.
    - intros ->. discriminate N3. }
  split.
  - rewrite E1, E2, E3. repeat split; reflexivity.
  - destruct (Hrun Sample.tool_ok (Sample.start Sample.tree))
      as (evs & Htr & _ & Hall).
    cbn [Sample.start trace app] in Htr. rewrite Htr.
    rewrite Hall by (vm_compute; reflexivity). reflexivity.
Defined.

(** ** Directories before steps *)

Lemma no_spawn_inside (evs before after : list event) argv st :
  spawned evs = [] -> evs <> before ++ Spawn argv st :: after.
Proof.
  intros H E. rewrite E, spawned_app in H. cbn [spawned] in H.
  destruct (spawned before); discriminate H.
Qed.

(** C9, as claimed for every file the pipeline is invoked on, fails where a
    regular file sits in the place of [data/exports]: the pipeline of the
    file raises at the first directory, no directory is created and none of
    the three stage directories is there afterwards. *)
Lemma stage_dirs_missing_when_blocked :
  process_glb_file Sample.tool_ok (Sample.imports // "a.glb") Sample.app
    (Sample.start Sample.tree_blocked)
  = (Raise NotADirectoryError,
     mkWorld Sample.tree_blocked (banner (Sample.imports // "a.glb")))
  /\ Forall (fun d => is_dir Sample.tree_blocked d = false) (stage_dirs Sample.app)
  /\ ~ stage_dirs_always_there Sample.tool_ok (Sample.imports // "a.glb") Sample.app
        (Sample.start Sample.tree_blocked).
Proof.
  split; [vm_compute; reflexivity|]. split.
  - repeat (apply Forall_cons || apply Forall_nil); vm_compute; reflexivity.
  - intros H. apply Forall_inv in H. vm_compute in H. discriminate H.
Qed.

(** C9, amended: in the events of [process_glb_file] on a named file, every
    spawned command comes after the three stage directories have been
    ensured.  When they can be ensured, the first step is attempted, after
    them; and, with a tool that leaves directories in place, the three
    directories exist when the pipeline has returned or has spawned anything,
    also when each step failed.  When one of them cannot be created, the
    pipeline raises the error of the creation and spawns nothing. *)
Theorem stage_dirs_before_steps (tool : Tool) (input_file base_dir : Path)
        (w : World) :
  name input_file <> ""%string ->
  let run := process_glb_file tool input_file base_dir w in
  exists evs,
    trace (snd run) = trace w ++ evs
    /\ (forall before argv st after,
           evs = before ++ Spawn argv st :: after ->
           Forall (fun d => In (Mkdir d) before) (stage_dirs base_dir))
    /\ (preserves_dirs tool ->
        returned (fst run) \/ spawned evs <> [] ->
        Forall (fun d => is_dir (fs (snd run)) d = true) (stage_dirs base_dir))
    /\ (forall f1,
           ensure_dirs (stage_dirs base_dir) (fs w) = Ok f1 ->
           spawned evs <> []
           /\ exists later,
               evs = banner input_file ++ map Mkdir (stage_dirs base_dir) ++ later)
    /\ (forall e,
           ensure_dirs (stage_dirs base_dir) (fs w) = Raise e ->
           fst run = Raise e /\ spawned evs = []).
Proof.
  intros Hname run. subst run.
  destruct (pipeline_shape tool input_file base_dir w)
    as [(e & w1 & made & Hdirs & Hrun & Htr & _)
       |(f1 & r & f' & evs & Hdirs & Hrun & Hsteps & Hkeep)];
    rewrite (output_dirs_named _ _ Hname) in *; rewrite Hrun; cbn [fst snd trace fs].
  - exists (banner input_file ++ map Mkdir made).
    assert (Hsp : spawned (banner input_file ++ map Mkdir made) = []).
    { rewrite spawned_app, spawned_mkdirs. reflexivity. }
    split; [exact Htr|]. split; [|split; [|split]].
    + intros before argv st after E.
      exfalso. exact (no_spawn_inside _ _ _ _ _ Hsp E).
    + intros _ [[b Hb]|Hne]; [discriminate Hb | contradiction].
    + intros f1 H. rewrite H in Hdirs. discriminate Hdirs.
    + intros e' H. rewrite H in Hdirs. injection Hdirs as ->. auto.
  - exists (banner input_file ++ map Mkdir (stage_dirs base_dir) ++ evs).
    assert (Hsp : spawned (banner input_file ++ map Mkdir (stage_dirs base_dir) ++ evs)
                  = spawned evs).
    { rewrite !spawned_app, spawned_mkdirs. reflexivity. }
    split; [reflexivity|]. split; [|split; [|split]].
    + intros before argv st after E.
      unfold banner, stage_dirs in *. cbn [map app] in E.
      do 6 (destruct before as [|? before];
            [discriminate E | injection E as <- E]).
      repeat (apply Forall_cons || apply Forall_nil); cbn [In]; auto 10.
    + intros Hp _. apply ensure_dirs_ok in Hdirs. destruct Hdirs as [Hall Hk].
      eapply Forall_impl; [|exact Hall].
      intros d Hd. exact (Hkeep Hp d Hd).
    + intros _ _. rewrite Hsp. split.
      * apply (steps_shape_started _ _ _ Hsteps). discriminate.
      * exists evs. reflexivity.
    + intros e H. rewrite H in Hdirs. discriminate Hdirs.
Qed.

Lemma tool_failing_preserves : preserves_dirs Sample.tool_failing.
Proof.
  intros tr f argv f' H. injection H as <-. apply keeps_dirs_refl.
Qed.

Lemma stage_dirs_before_steps_witness :
  fst (process_glb_file Sample.tool_failing (Sample.imports // "a.glb") Sample.app
         (Sample.start Sample.tree)) = Ok false
  /\ Forall (fun d => is_dir (fs (snd (process_glb_file Sample.tool_failing
                                         (Sample.imports // "a.glb") Sample.app
                                         (Sample.start Sample.tree)))) d = true)
            (stage_dirs Sample.app).
Proof.
  split; [vm_compute; reflexivity|].
  destruct (stage_dirs_before_steps Sample.tool_failing (Sample.imports // "a.glb")
              Sample.app (Sample.start Sample.tree) ltac:(discriminate))
    as (evs & _ & _ & Hexist & _).
  apply Hexist.
  - exact tool_failing_preserves.
  - left. exists false. vm_compute. reflexivity.
Defined.

(** ** Order of strings and of sibling paths *)

Lemma ascii_compare_refl (a : ascii) : Ascii.compare a a = Eq.
Proof. unfold Ascii.compare. apply N.compare_refl. Qed.

Lemma ascii_compare_lt_trans (a b c : ascii) :
  Ascii.compare a b = Lt -> Ascii.compare b c = Lt -> Ascii.compare a c = Lt.
Proof.
  unfold Ascii.compare. rewrite !N.compare_lt_iff. apply N.lt_trans.
Qed.

Lemma string_compare_refl (s : string) : String.compare s s = Eq.
Proof.
  induction s as [|a s IH]; cbn [String.compare]; [reflexivity|].
  rewrite ascii_compare_refl. exact IH.
Qed.

Lemma string_compare_lt_trans (s t u : string) :
  String.compare s t = Lt -> String.compare t u = Lt -> String.compare s u = Lt.
Proof.
  revert t u. induction s as [|a s IH]; intros [|b t] [|c u];
    cbn [String.compare]; try congruence.
  destruct (Ascii.compare a b) eqn:Eab; try discriminate;
    destruct (Ascii.compare b c) eqn:Ebc; try discriminate.
  - apply Ascii.compare_eq_iff in Eab, Ebc. subst.
    rewrite ascii_compare_refl. apply IH.
  - apply Ascii.compare_eq_iff in Eab. subst. rewrite Ebc. reflexivity.
  - apply Ascii.compare_eq_iff in Ebc. subst. rewrite Eab. reflexivity.
  - rewrite (ascii_compare_lt_trans _ _ _ Eab Ebc). reflexivity.
Qed.

Lemma string_ltb_asym (s t : string) :
  String.ltb s t = true -> String.ltb t s = false.
Proof.
  unfold String.ltb. rewrite (String.compare_antisym t s).
  destruct (String.compare s t); cbn [CompOpp]; congruence.
Qed.

Lemma string_not_ltb_trans (s t u : string) :
  String.ltb t s = false -> String.ltb u t = false -> String.ltb u s = false.
Proof.
  unfold String.ltb. intros Hts Hut.
  destruct (String.compare u s) eqn:Eus; try reflexivity. exfalso.
  destruct (String.compare t s) eqn:Ets; try discriminate.
  - apply String.compare_eq_iff in Ets. subst. rewrite Eus in Hut. discriminate.
  - assert (Est : String.compare s t = Lt).
    { rewrite String.compare_antisym, Ets. reflexivity. }
    rewrite (string_compare_lt_trans _ _ _ Eus Est) in Hut. discriminate.
Qed.

Lemma string_not_ltb_leb (s t : string) :
  String.ltb t s = false -> String.leb s t = true.
Proof.
  unfold String.ltb, String.leb. rewrite (String.compare_antisym t s).
  destruct (String.compare s t); cbn [CompOpp]; congruence.
Qed.

(** Paths in one directory are ordered as their names are. *)
Lemma path_ltb_siblings (d : Path) (a b : string) :
  path_ltb (d ++ [a]) (d ++ [b]) = String.ltb a b.
Proof.
  induction d as [|c d IH]; cbn [app path_ltb].
  - unfold String.ltb. destruct (String.compare a b); reflexivity.
  - rewrite string_compare_refl. exact IH.
Qed.

(** ** Sorting *)

Section SortingFacts.

Context {A : Type} (ltb : A -> A -> bool).

Lemma insert_permutation (x : A) (l : list A) :
  Permutation (Py.insert ltb x l) (x :: l).
Proof.
  induction l as [|y l IH]; cbn [Py.insert]; [reflexivity|].
  destruct (ltb y x); [|reflexivity].
  rewrite IH. apply perm_swap.
Qed.

Lemma sorted_permutation (l : list A) : Permutation (Py.sorted ltb l) l.
Proof.
  induction l as [|x l IH]; cbn [Py.sorted]; [reflexivity|].
  rewrite insert_permutation, IH. reflexivity.
Qed.

Hypothesis ltb_asym : forall a b, ltb a b = true -> ltb b a = false.
Hypothesis not_ltb_trans :
  forall a b c, ltb b a = false -> ltb c b = false -> ltb c a = false.

Lemma insert_sorted (x : A) (l : list A) :
  StronglySorted (fun a b => ltb b a = false) l ->
  StronglySorted (fun a b => ltb b a = false) (Py.insert ltb x l).
Proof.
  induction 1 as [|y l Hl IH Hy]; cbn [Py.insert].
  - repeat constructor.
  - destruct (ltb y x) eqn:E.
    + constructor; [exact IH|].
      rewrite (insert_permutation x l). constructor; [|exact Hy].
      apply ltb_asym; exact E.
    + constructor; [constructor; assumption|].
      constructor; [exact E|].
      eapply Forall_impl; [|exact Hy].
      intros z Hz. cbv beta in *. eapply not_ltb_trans; eauto.
Qed.

Lemma sorted_sorted (l : list A) :
  StronglySorted (fun a b => ltb b a = false) (Py.sorted ltb l).
Proof.
  induction l as [|x l IH]; cbn [Py.sorted]; [constructor|].
  apply insert_sorted; exact IH.
Qed.

End SortingFacts.

(** Sorting commutes with a map that respects the order. *)
Lemma sorted_map {A B : Type} (ltA : A -> A -> bool) (ltB : B -> B -> bool)
      (f : A -> B) :
  (forall x y, ltB (f x) (f y) = ltA x y) ->
  forall l, Py.sorted ltB (map f l) = map f (Py.sorted ltA l).
Proof.
  intros Hf.
  assert (Hins : forall x l, Py.insert ltB (f x) (map f l) = map f (Py.insert ltA x l)).
  { intros x l. induction l as [|y l IH]; cbn [map Py.insert]; [reflexivity|].
    rewrite Hf. destruct (ltA y x); cbn [map]; [rewrite IH|]; reflexivity. }
  induction l as [|x l IH]; cbn [map Py.sorted]; [reflexivity|].
  rewrite IH. apply Hins.
Qed.

(** ** Suffix and extension *)

Local Open Scope string_scope.

Lemma substring_whole (s : string) : substring 0 (String.length s) s = s.
Proof. induction s as [|c s IH]; cbn [String.length substring]; [reflexivity|]. rewrite IH. reflexivity. Qed.

Lemma substring_split (s : string) :
  forall n, n <= String.length s ->
  s = substring 0 n s ++ substring n (String.length s - n) s.
Proof.
  induction s as [|c s IH]; intros [|n] Hn; cbn [String.length] in *.
  - reflexivity.
  - lia.
  - cbn [substring Nat.sub String.append]. rewrite substring_whole. reflexivity.
  - cbn [substring Nat.sub String.append]. f_equal. apply IH. lia.
Qed.

Lemma substring_prefix_length (s : string) :
  forall n, n <= String.length s -> String.length (substring 0 n s) = n.
Proof.
  induction s as [|c s IH]; intros [|n] Hn; cbn [String.length substring] in *; try lia.
  rewrite IH; lia.
Qed.

Lemma substring_app_tail (s t : string) :
  substring (String.length s) (String.length t) (s ++ t) = t.
Proof.
  induction s as [|c s IH]; cbn [String.length String.append substring].
  - apply substring_whole.
  - exact IH.
Qed.

Lemma lower_length (s : string) : String.length (Py.lower s) = String.length s.
Proof. induction s; cbn [Py.lower String.length]; auto. Qed.

Lemma lower_ascii_dot (c : ascii) : Py.lower_ascii c = "."%char -> c = "."%char.
Proof.
  destruct c as [[] [] [] [] [] [] [] []]; vm_compute; intros H; try discriminate H; reflexivity.
Qed.

Lemma lower_ascii_letter_not_dot (c : ascii) :
  Py.lower_ascii c <> "."%char -> c <> "."%char.
Proof. intros H ->. apply H. reflexivity. Qed.

Lemma rfind_app_dot (stem : string) (c1 c2 c3 : ascii) :
  c1 <> "."%char -> c2 <> "."%char -> c3 <> "."%char ->
  Py.rfind "." (stem ++ String "." (String c1 (String c2 (String c3 ""))))
  = Z.of_nat (String.length stem).
Proof.
  intros H1 H2 H3.
  induction stem as [|a stem IH]; cbn [String.append String.length Py.rfind].
  - apply Ascii.eqb_neq in H1, H2, H3. rewrite H1, H2, H3. reflexivity.
  - rewrite IH. destruct (Z.leb_spec 0 (Z.of_nat (String.length stem))); lia.
Qed.

Lemma append_length (s t : string) :
  String.length (s ++ t) = String.length s + String.length t.
Proof.
  induction s as [|c s IH]; cbn [String.append String.length Nat.add];
    [reflexivity | rewrite IH; reflexivity].
Qed.

Lemma suffix_asset_iff (p : Path) :
  Py.lower (suffix p) = ".glb" <-> has_asset_extension (name p).
Proof.
  unfold suffix. cbv zeta. generalize (name p) as nm. intros nm. split.
  - destruct ((0 <? Py.rfind "." nm)%Z
              && (Py.rfind "." nm <? Z.of_nat (String.length nm) - 1)%Z) eqn:E;
      [|intros H; discriminate H].
    apply andb_true_iff in E. destruct E as [E1 E2].
    apply Z.ltb_lt in E1, E2. intros H.
    exists (substring 0 (Z.to_nat (Py.rfind "." nm)) nm), (Py.slice_from (Py.rfind "." nm) nm).
    split; [apply substring_split; lia|]. split; [|exact H].
    intros Hempty. apply (f_equal String.length) in Hempty.
    rewrite substring_prefix_length in Hempty by lia.
    cbn [String.length] in Hempty. lia.
  - intros (stem & ext & -> & Hstem & Hext).
    destruct ext as [|c0 [|c1 [|c2 [|c3 [|c4 ext]]]]]; try discriminate Hext.
    cbn [Py.lower] in Hext. injection Hext as H0 H1 H2 H3.
    apply lower_ascii_dot in H0. subst c0.
    assert (N1 : c1 <> "."%char) by (intros ->; discriminate H1).
    assert (N2 : c2 <> "."%char) by (intros ->; discriminate H2).
    assert (N3 : c3 <> "."%char) by (intros ->; discriminate H3).
    rewrite (rfind_app_dot stem c1 c2 c3 N1 N2 N3).
    rewrite append_length. cbn [String.length].
    assert (Hpos : 0 < String.length stem).
    { destruct stem; [contradiction | cbn [String.length]; lia]. }
    replace ((0 <? Z.of_nat (String.length stem))%Z) with true
      by (symmetry; apply Z.ltb_lt; lia).
    replace ((Z.of_nat (String.length stem)
              <? Z.of_nat (String.length stem + 4) - 1)%Z) with true
      by (symmetry; apply Z.ltb_lt; lia).
    cbn [andb]. unfold Py.slice_from.
    rewrite append_length, Nat2Z.id. cbn [String.length].
    replace (String.length stem + 4 - String.length stem) with 4 by lia.
    pose proof (substring_app_tail stem
                  (String "." (String c1 (String c2 (String c3 ""))))) as Htail.
    cbn [String.length] in Htail. rewrite Htail.
    cbn [Py.lower]. rewrite H1, H2, H3. reflexivity.
Qed.

Local Open Scope list_scope.

(** ** File discovery *)

Lemma collect_glb_eq (entries : list Path) :
  forall glb_files w,
    collect_glb entries glb_files w
    = (Ok (glb_files ++ filter (asset (fs w)) entries), w).
Proof.
  induction entries as [|p entries IH]; intros acc w; cbn [collect_glb filter].
  - unfold ret. rewrite app_nil_r. reflexivity.
  - unfold bind, query.
    change (is_file (fs w) p && (Py.lower (suffix p) =? ".glb")%string)
      with (asset (fs w) p).
    destruct (asset (fs w) p).
    + rewrite IH, <- app_assoc. reflexivity.
    + apply IH.
Qed.

(** Discovery lists the directory once and leaves the file system alone; it
    raises when the path is not a directory. *)
Lemma get_glb_files_eq (imports_dir : Path) (w : World) :
  get_glb_files imports_dir w =
  match stat (fs w) imports_dir with
  | Some Directory | Some SealedDirectory | Some FrozenDirectory =>
      (Ok (Py.sorted path_ltb
             (filter (asset (fs w)) (children (fs w) imports_dir))),
       extend w [Iterdir imports_dir])
  | Some DanglingLink | None =>
      (Raise FileNotFoundError, extend w [Iterdir imports_dir])
  | Some _ => (Raise NotADirectoryError, extend w [Iterdir imports_dir])
  end.
Proof.
  unfold get_glb_files, bind, iterdir, extend.
  destruct (stat (fs w) imports_dir) as [[]|]; try reflexivity;
    rewrite collect_glb_eq; reflexivity.
Qed.

Lemma get_glb_files_dir (imports_dir : Path) (w : World) :
  is_dir (fs w) imports_dir = true ->
  get_glb_files imports_dir w
  = (Ok (Py.sorted path_ltb
           (filter (asset (fs w)) (children (fs w) imports_dir))),
     extend w [Iterdir imports_dir]).
Proof.
  intros H. rewrite get_glb_files_eq. unfold is_dir in H.
  destruct (stat (fs w) imports_dir) as [[]|]; try discriminate; reflexivity.
Qed.

Lemma get_glb_files_found (imports_dir : Path) (w : World) (found : list Path) :
  fst (get_glb_files imports_dir w) = Ok found ->
  found = Py.sorted path_ltb
            (filter (asset (fs w)) (children (fs w) imports_dir)).
Proof.
  rewrite get_glb_files_eq.
  destruct (stat (fs w) imports_dir) as [[]|]; cbn [fst]; congruence.
Qed.

Lemma children_spec (f : FS) (d p : Path) :
  In p (children f d) -> p = d ++ [name p].
Proof.
  unfold children. rewrite in_map_iff. intros ([q n] & <- & H).
  apply filter_In in H. destruct H as [_ H]. cbn [fst] in *.
  apply child_of_spec; exact H.
Qed.

Lemma siblings_by_name (d : Path) (l : list Path) :
  (forall p, In p l -> p = d ++ [name p]) ->
  l = map (fun n => d ++ [n]) (map name l).
Proof.
  induction l as [|p l IH]; intros H; cbn [map]; [reflexivity|].
  rewrite <- IH by (intros q Hq; apply H; right; exact Hq).
  rewrite <- (H p) by (left; reflexivity). reflexivity.
Qed.

Lemma sorted_siblings (d : Path) (names : list string) :
  StronglySorted name_le
    (map (fun n => d ++ [n]) (Py.sorted String.ltb names)).
Proof.
  assert (H : StronglySorted (fun a b => String.ltb b a = false)
                (Py.sorted String.ltb names)).
  { apply sorted_sorted.
    - apply string_ltb_asym.
    - apply string_not_ltb_trans. }
  induction H as [|n l Hl IH Hn]; cbn [map]; constructor; [exact IH|].
  apply Forall_forall. intros p Hp. apply in_map_iff in Hp.
  destruct Hp as (m & <- & Hm). unfold name_le. rewrite !name_child.
  apply string_not_ltb_leb.
  rewrite Forall_forall in Hn. apply Hn; exact Hm.
Qed.

Lemma filter_split_length {A : Type} (f : A -> bool) (l : list A) :
  List.length (filter f l) + List.length (filter (fun x => negb (f x)) l)
  = List.length l.
Proof.
  induction l as [|x l IH]; cbn [filter]; [reflexivity|].
  destruct (f x); cbn [negb List.length]; lia.
Qed.

(** C6: in a directory with N regular files that carry the asset extension
    in some letter case and M other entries, discovery answers exactly those
    N files and nothing else, ordered by name. *)
Theorem discovery_exact_sorted (imports_dir : Path) (w : World) (N M : nat) :
  let entries := children (fs w) imports_dir in
  is_dir (fs w) imports_dir = true ->
  List.length (filter (asset (fs w)) entries) = N ->
  List.length (filter (fun p => negb (asset (fs w) p)) entries) = M ->
  exists found,
    get_glb_files imports_dir w = (Ok found, extend w [Iterdir imports_dir])
    /\ Permutation found (filter (asset (fs w)) entries)
    /\ (forall p, In p found <->
                  In p entries /\ is_file (fs w) p = true
                  /\ has_asset_extension (name p))
    /\ List.length found = N
    /\ List.length entries = N + M
    /\ StronglySorted name_le found.
Proof.
  intros entries Hdir HN HM.
  exists (Py.sorted path_ltb (filter (asset (fs w)) entries)).
  split; [apply get_glb_files_dir; exact Hdir|].
  pose proof (sorted_permutation path_ltb (filter (asset (fs w)) entries)) as Hperm.
  split; [exact Hperm|]. split; [|split; [|split]].
  - intros p. split.
    + intros H. apply (Permutation_in _ Hperm) in H.
      apply filter_In in H. destruct H as [Hin Ha]. unfold asset in Ha.
      apply andb_true_iff in Ha. destruct Ha as [Hf He].
      apply String.eqb_eq in He. apply suffix_asset_iff in He. auto.
    + intros (Hin & Hf & He). apply suffix_asset_iff in He.
      apply (Permutation_in _ (Permutation_sym Hperm)).
      apply filter_In. split; [exact Hin|]. unfold asset.
      rewrite Hf, He. reflexivity.
  - rewrite (Permutation_length Hperm). exact HN.
  - rewrite <- HN, <- HM. symmetry. apply filter_split_length.
  - rewrite (siblings_by_name imports_dir (filter (asset (fs w)) entries)).
    + rewrite (sorted_map String.ltb path_ltb (fun n => imports_dir ++ [n])).
      * apply sorted_siblings.
      * intros x y. apply path_ltb_siblings.
    + intros p Hp. apply filter_In in Hp. destruct Hp as [Hp _].
      eapply children_spec; exact Hp.
Qed.

Lemma discovery_exact_sorted_witness :
  get_glb_files Sample.imports (Sample.start Sample.tree)
  = (Ok [Sample.imports // "a.glb"; Sample.imports // "b.GLB"],
     extend (Sample.start Sample.tree) [Iterdir Sample.imports]).
Proof.
  destruct (discovery_exact_sorted Sample.imports (Sample.start Sample.tree) 2 3
              eq_refl eq_refl eq_refl)
    as (found & Hget & _ & _ & _ & _ & _).
  rewrite Hget. f_equal. f_equal.
  apply (f_equal fst) in Hget. cbn [fst] in Hget.
  apply get_glb_files_found in Hget. rewrite Hget. vm_compute. reflexivity.
Defined.

(** C10: a file whose whole name is [.glb] has the empty suffix, and
    discovery never answers it, whatever the directory holds. *)
Theorem dotfile_glb_not_discovered (imports_dir : Path) (w : World) (p : Path) :
  name p = ".glb"%string ->
  suffix p = ""%string
  /\ forall found, fst (get_glb_files imports_dir w) = Ok found -> ~ In p found.
Proof.
  intros Hname.
  assert (Hs : suffix p = ""%string).
  { unfold suffix. rewrite Hname. vm_compute. reflexivity. }
  split; [exact Hs|].
  intros found Hget Hin. apply get_glb_files_found in Hget. subst found.
  apply (Permutation_in _ (sorted_permutation path_ltb _)) in Hin.
  apply filter_In in Hin. destruct Hin as [_ Ha]. unfold asset in Ha.
  rewrite Hs in Ha. apply andb_true_iff in Ha. destruct Ha as [_ Ha].
  vm_compute in Ha. discriminate Ha.
Qed.

Lemma dotfile_glb_not_discovered_witness :
  is_file Sample.tree (Sample.imports // ".glb") = true
  /\ suffix (Sample.imports // ".glb") = ""%string
  /\ ~ In (Sample.imports // ".glb")
          [Sample.imports // "a.glb"; Sample.imports // "b.GLB"].
Proof.
  split; [reflexivity|].
  destruct (dotfile_glb_not_discovered Sample.imports (Sample.start Sample.tree)
              (Sample.imports // ".glb") eq_refl) as [Hs Hnot].
  split; [exact Hs|].
  apply Hnot. vm_compute. reflexivity.
Defined.

(** ** The orchestrator *)

Lemma extend_extend (w : World) (evs1 evs2 : list event) :
  extend (extend w evs1) evs2 = extend w (evs1 ++ evs2).
Proof. unfold extend. cbn [fs trace]. rewrite app_assoc. reflexivity. Qed.

Lemma for_each_print {A : Type} (g : A -> string) (xs : list A) :
  forall w, for_each xs (fun x => print (g x)) w
            = (Ok tt, extend w (map (fun x => Print (g x)) xs)).
Proof.
  induction xs as [|x xs IH]; intros w; cbn [for_each map].
  - unfold ret, extend. rewrite app_nil_r. destruct w; reflexivity.
  - unfold bind. unfold print at 1. unfold emit. rewrite IH.
    unfold extend. cbn [fs trace]. rewrite <- app_assoc. reflexivity.
Qed.

Section Orchestrator.

Variable tool : Tool.

(** [main], branch by branch. *)
Lemma main_eq (script_dir : Path) (w : World) :
  main tool script_dir w =
  let imports_dir := imports_of script_dir in
  if path_exists (fs w) imports_dir then
    match get_glb_files imports_dir w with
    | (Raise e, w1) => (Raise e, w1)
    | (Ok [], w1) =>
        (Raise (SystemExit 0),
         extend w1 [Print "No GLB files found in the imports directory."])
    | (Ok glb_files, w1) =>
        match process_files tool glb_files script_dir 0 0
                (extend w1 (listing glb_files)) with
        | (Raise e, w2) => (Raise e, w2)
        | (Ok (successful, failed), w2) =>
            (if (0 <? failed)%nat then Raise (SystemExit 1) else Ok tt,
             extend w2 (summary (List.length glb_files) successful failed
                        ++ closing failed))
        end
    end
  else
    (Raise (SystemExit 1),
     extend w [Print ("Error: Imports directory not found: " ++ str imports_dir)%string]).
Proof.
  unfold main, imports_of. cbn zeta.
  unfold bind at 1. unfold query.
  destruct (path_exists (fs w) (script_dir // "data" // "imports")); cbn [negb when].
  - unfold bind at 1. unfold ret at 1. unfold bind at 1.
    destruct (get_glb_files (script_dir // "data" // "imports") w)
      as [[[|p glb_files]|e] w1]; [reflexivity| |reflexivity].
    unfold bind at 1. unfold ret at 1.
    unfold bind at 1. unfold print at 1. unfold emit.
    unfold bind at 1. rewrite for_each_print. unfold bind at 1.
    unfold listing. unfold extend at 1. cbn [fs trace].
    match goal with
    | |- context [process_files tool ?fs0 ?d 0 0 ?w0] =>
        replace w0 with (extend w1 (listing (p :: glb_files)))
          by (unfold extend, listing; cbn [fs trace map];
              rewrite <- app_assoc; reflexivity)
    end.
    fold (listing (p :: glb_files)).
    destruct (process_files tool (p :: glb_files) script_dir 0 0
                (extend w1 (listing (p :: glb_files)))) as [[[s f]|e] w2];
      [|reflexivity].
    cbn [fst snd]. unfold bind, print, emit, sys_exit, raise, extend, summary, closing.
    cbn [fs trace]. rewrite <- !app_assoc. cbn [app].
    destruct (0 <? f)%nat; cbn [fs trace]; rewrite <- ?app_assoc; reflexivity.
  - unfold bind, print, emit, sys_exit, raise, extend. reflexivity.
Qed.

End Orchestrator.

(** ** Errors of directory creation *)

Lemma os_mkdir_raise (p : Path) (f : FS) (e : exn) :
  os_mkdir p f = Raise e -> is_os_error e = true.
Proof.
  unfold os_mkdir.
  destruct (stat f p); [intros H; injection H as <-; reflexivity|].
  destruct (stat f (parent p)) as [[]|]; intros H;
    try discriminate H; injection H as <-; reflexivity.
Qed.

Lemma mkdir_exist_ok_raise (p : Path) (f : FS) (e : exn) :
  mkdir_exist_ok p f = Raise e -> is_os_error e = true.
Proof.
  unfold mkdir_exist_ok.
  destruct (os_mkdir p f) as [|e1] eqn:E; [discriminate|].
  apply os_mkdir_raise in E.
  destruct e1; try discriminate E;
    try (intros H; injection H as <-; reflexivity);
    destruct (is_dir f p); intros H; try discriminate H;
    injection H as <-; reflexivity.
Qed.

Lemma mkdir_parents_rev_raise (rp : list string) :
  forall f e, mkdir_parents_rev rp f = Raise e -> is_os_error e = true.
Proof.
  induction rp as [|a rp IH]; intros f e; cbn [mkdir_parents_rev];
    destruct (os_mkdir _ f) as [|e1] eqn:E; try discriminate;
    apply os_mkdir_raise in E;
    destruct e1; try discriminate E;
    try (destruct (is_dir f _); intros H;
         [discriminate H | injection H as <-; reflexivity]).
  - intros H; injection H as <-; reflexivity.
  - destruct (mkdir_parents_rev rp f) as [f1|e1] eqn:E1.
    + apply mkdir_exist_ok_raise.
    + intros H; injection H as <-. eapply IH; exact E1.
Qed.

Lemma ensure_dirs_raise (dirs : list Path) :
  forall f e, ensure_dirs dirs f = Raise e -> is_os_error e = true.
Proof.
  induction dirs as [|d dirs IH]; intros f e; cbn [ensure_dirs]; [discriminate|].
  destruct (mkdir_parents d f) as [f1|e1] eqn:E.
  - apply IH.
  - intros H; injection H as <-.
    unfold mkdir_parents in E. eapply mkdir_parents_rev_raise; exact E.
Qed.

Lemma os_error_no_exit (e : exn) : is_os_error e = true -> is_exit e = false.
Proof. destruct e; try discriminate; reflexivity. Qed.

Lemma unhandled_no_exit (e : exn) : unhandled e = true -> is_exit e = false.
Proof. destruct e; try discriminate; reflexivity. Qed.

(** ** The loop over the files *)

Lemma counts_of_returned (results : list (res bool)) :
  Forall returned results ->
  successes results + failures results = List.length results.
Proof.
  unfold successes, failures.
  induction 1 as [|r results Hr _ IH]; cbn [filter List.length]; [reflexivity|].
  destruct Hr as [b ->]. destruct b; cbn [List.length]; lia.
Qed.

Section Loop.

Variable tool : Tool.

Lemma process_files_cases (glb_files : list Path) (script_dir : Path) :
  forall successful failed w,
    let results := file_results tool glb_files script_dir w in
    exists w' evs,
      trace w' = trace w ++ evs
      /\ ((exists e,
              process_files tool glb_files script_dir successful failed w
              = (Raise e, w')
              /\ In (Raise e) results /\ is_exit e = false)
          \/ (process_files tool glb_files script_dir successful failed w
              = (Ok (successful + successes results, failed + failures results), w')
              /\ Forall returned results
              /\ List.length results = List.length glb_files)).
Proof.
  induction glb_files as [|p glb_files IH]; intros s f w; cbn [file_results].
  - exists w, []. rewrite app_nil_r. split; [reflexivity|]. right.
    cbn [process_files]. unfold ret, successes, failures. cbn [filter List.length].
    rewrite !Nat.add_0_r. repeat split. constructor.
  - destruct (pipeline_cases tool p script_dir w)
      as [(e & w1 & made & Hdirs & Hrun & Htr & _)
         |[(f1 & b & f' & evs & _ & Hrun & _ & _)
          |(f1 & e & f' & evs & _ & Hrun & He & _ & _)]].
    + exists w1, (banner p ++ map Mkdir made). split; [exact Htr|]. left.
      exists e. rewrite (process_files_raised _ _ _ _ _ _ _ _ _ Hrun), Hrun.
      split; [reflexivity|]. split; [left; reflexivity|].
      apply os_error_no_exit. eapply ensure_dirs_raise; exact Hdirs.
    + rewrite Hrun. destruct b.
      * rewrite (process_files_succeeded _ _ _ _ _ _ _ _ Hrun).
        destruct (IH (s + 1) f
                     (mkWorld f' (trace w ++ banner p
                                    ++ map Mkdir (output_dirs p script_dir) ++ evs)))
          as (w' & evs' & Htr' & Hcases).
        exists w', ((banner p ++ map Mkdir (output_dirs p script_dir) ++ evs) ++ evs').
        cbn [trace] in Htr'. rewrite Htr', <- !app_assoc.
        split; [reflexivity|].
        destruct Hcases as [(e & H1 & H2 & H3)|(H1 & H2 & H3)].
        -- left. exists e. split; [exact H1|]. split; [right; exact H2 | exact H3].
        -- right. rewrite H1. unfold successes, failures in *.
           cbn [filter List.length]. split; [do 3 f_equal; lia|].
           split; [constructor; [exists true; reflexivity | exact H2]|].
           rewrite H3. reflexivity.
      * rewrite (process_files_failed _ _ _ _ _ _ _ _ Hrun).
        destruct (IH s (f + 1)
                     (extend (mkWorld f' (trace w ++ banner p
                                            ++ map Mkdir (output_dirs p script_dir)
                                            ++ evs))
                        [Print ("Failed to process: " ++ name p)%string]))
          as (w' & evs' & Htr' & Hcases).
        exists w', ((banner p ++ map Mkdir (output_dirs p script_dir) ++ evs)
                    ++ Print ("Failed to process: " ++ name p)%string :: evs').
        cbn [extend trace] in Htr'. rewrite Htr', <- !app_assoc.
        split; [reflexivity|].
        destruct Hcases as [(e & H1 & H2 & H3)|(H1 & H2 & H3)].
        -- left. exists e. split; [exact H1|]. split; [right; exact H2 | exact H3].
        -- right. rewrite H1. unfold successes, failures in *.
           cbn [filter List.length]. split; [do 3 f_equal; lia|].
           split; [constructor; [exists false; reflexivity | exact H2]|].
           rewrite H3. reflexivity.
    + exists (mkWorld f' (trace w ++ banner p
                            ++ map Mkdir (output_dirs p script_dir) ++ evs)),
        (banner p ++ map Mkdir (output_dirs p script_dir) ++ evs).
      cbn [trace]. split; [reflexivity|]. left.
      exists e. rewrite (process_files_raised _ _ _ _ _ _ _ _ _ Hrun), Hrun.
      split; [reflexivity|]. split; [left; reflexivity|].
      apply unhandled_no_exit. exact He.
Qed.

End Loop.

(** ** The run as a whole *)

Lemma get_glb_files_world (imports_dir : Path) (w : World) :
  snd (get_glb_files imports_dir w) = extend w [Iterdir imports_dir].
Proof.
  rewrite get_glb_files_eq.
  destruct (stat (fs w) imports_dir) as [[]|]; reflexivity.
Qed.

Lemma get_glb_files_raise (imports_dir : Path) (w : World) (e : exn) :
  fst (get_glb_files imports_dir w) = Raise e -> is_os_error e = true.
Proof.
  rewrite get_glb_files_eq.
  destruct (stat (fs w) imports_dir) as [[]|]; cbn [fst]; intros H;
    try discriminate H; injection H as <-; reflexivity.
Qed.

Section Run.

Variable tool : Tool.

(** The four ways a run can go: no imports directory; discovery raises; no
    file is found; the loop runs, and either raises or reaches the summary. *)
Lemma run_script_cases (script_dir : Path) (w : World) :
  let imports_dir := imports_of script_dir in
  (path_exists (fs w) imports_dir = false
   /\ run_script tool script_dir w
      = (1%Z, extend w [Print ("Error: Imports directory not found: "
                               ++ str imports_dir)%string]))
  \/ (path_exists (fs w) imports_dir = true
      /\ exists e,
          fst (get_glb_files imports_dir w) = Raise e
          /\ run_script tool script_dir w = (1%Z, extend w [Iterdir imports_dir]))
  \/ (path_exists (fs w) imports_dir = true
      /\ fst (get_glb_files imports_dir w) = Ok []
      /\ run_script tool script_dir w
         = (0%Z, extend w [Iterdir imports_dir;
                           Print "No GLB files found in the imports directory."]))
  \/ (path_exists (fs w) imports_dir = true
      /\ exists p rest,
          fst (get_glb_files imports_dir w) = Ok (p :: rest)
          /\ let glb_files := p :: rest in
             let results := file_results tool glb_files script_dir
                              (loop_start script_dir w glb_files) in
             exists w2 evs,
               trace w2 = trace (loop_start script_dir w glb_files) ++ evs
               /\ ((exists e,
                       In (Raise e) results /\ is_exit e = false
                       /\ process_files tool glb_files script_dir 0 0
                            (loop_start script_dir w glb_files) = (Raise e, w2)
                       /\ run_script tool script_dir w = (1%Z, w2))
                   \/ (Forall returned results
                       /\ List.length results = List.length glb_files
                       /\ run_script tool script_dir w
                          = ((if (0 <? failures results)%nat then 1 else 0)%Z,
                             extend w2 (summary (List.length glb_files)
                                          (successes results) (failures results)
                                        ++ closing (failures results)))))).
Proof.
  intros imports_dir. unfold run_script. rewrite main_eq. fold imports_dir. cbn zeta.
  destruct (path_exists (fs w) imports_dir) eqn:Hex; [|left; auto].
  right.
  pose proof (get_glb_files_world imports_dir w) as Hw.
  pose proof (get_glb_files_raise imports_dir w) as Hr.
  destruct (get_glb_files imports_dir w) as [[[|p rest]|e] w1];
    cbn [fst snd] in *; subst w1.
  - right; left. rewrite extend_extend. auto.
  - right; right. split; [reflexivity|]. exists p, rest. split; [reflexivity|].
    cbn zeta. rewrite extend_extend. cbn [app].
    change (extend w (Iterdir imports_dir :: listing (p :: rest)))
      with (loop_start script_dir w (p :: rest)).
    destruct (process_files_cases tool (p :: rest) script_dir 0 0
                (loop_start script_dir w (p :: rest)))
      as (w2 & evs & Htr & [(e & Hrun & Hin & Hos)|(Hrun & Hret & Hlen)]).
    + exists w2, evs. split; [exact Htr|]. left. exists e.
      rewrite Hrun. repeat split; auto.
      destruct e; try discriminate Hos; reflexivity.
    + exists w2, evs. split; [exact Htr|]. right.
      rewrite Hrun. cbn [Nat.add]. repeat split; auto.
      destruct (0 <? failures _)%nat; reflexivity.
  - left. split; [reflexivity|]. exists e. split; [reflexivity|].
    specialize (Hr e eq_refl). destruct e; try discriminate Hr; reflexivity.
Qed.

End Run.

(** ** Answers and counters *)

Lemma failures_all_true {A : Type} (l : list A) :
  failures (map (fun _ => Ok true) l) = 0.
Proof. unfold failures. induction l; cbn [map filter]; auto. Qed.

Lemma all_true_of_no_failure (results : list (res bool)) :
  Forall returned results -> failures results = 0 ->
  forall {A : Type} (l : list A),
    List.length results = List.length l -> results = map (fun _ => Ok true) l.
Proof.
  unfold failures.
  induction 1 as [|r results Hr _ IH]; intros HF A [|x l] Hlen;
    try discriminate Hlen; [reflexivity|].
  destruct Hr as [b ->].
  destruct b; cbn [filter List.length] in HF; [|discriminate HF].
  cbn [map]. f_equal. apply IH; [exact HF|].
  cbn [List.length] in Hlen. lia.
Qed.

Lemma failures_positive (results : list (res bool)) :
  In (Ok false) results -> 0 < failures results.
Proof.
  unfold failures.
  induction results as [|r results IH]; [intros []|intros [->|H]];
    cbn [filter List.length].
  - lia.
  - specialize (IH H). destruct r as [[]|]; cbn [List.length]; lia.
Qed.

Lemma no_raise_in_all_true {A : Type} (l : list A) (e : exn) :
  ~ In (Raise e) (map (fun _ => Ok true) l).
Proof.
  intros H. apply in_map_iff in H. destruct H as (x & H & _). discriminate H.
Qed.

Lemma raise_not_returned (results : list (res bool)) (e : exn) :
  In (Raise e) results -> ~ Forall returned results.
Proof.
  intros Hin Hall. rewrite Forall_forall in Hall.
  destruct (Hall _ Hin) as [b Hb]. discriminate Hb.
Qed.

(** ** Exit status *)

(** C7: when the imports directory does not exist the run ends with exit
    status 1 having printed the error line and nothing else: the directory
    is not listed, no directory is created and no command is spawned. *)
Theorem missing_imports_aborts (tool : Tool) (script_dir : Path) (w : World) :
  path_exists (fs w) (imports_of script_dir) = false ->
  run_script tool script_dir w
  = (1%Z, extend w [Print ("Error: Imports directory not found: "
                           ++ str (imports_of script_dir))%string]).
Proof.
  intros Hex.
  destruct (run_script_cases tool script_dir w)
    as [[_ H]|[[H _]|[[H _]|[H _]]]]; [exact H| | |];
    rewrite Hex in H; discriminate H.
Qed.

Lemma missing_imports_aborts_witness :
  run_script Sample.tool_ok Sample.app (Sample.start Sample.tree_bare)
  = (1%Z, mkWorld Sample.tree_bare
                  [Print "Error: Imports directory not found: /srv/app/data/imports"]).
Proof.
  exact (missing_imports_aborts Sample.tool_ok Sample.app
           (Sample.start Sample.tree_bare) eq_refl).
Defined.

(** C2: the exit status is 0 or 1.  It is 0 exactly when the imports
    directory exists, discovery answers, and either no file was found or the
    pipeline answered success for every file found; it is 1 when the imports
    directory is missing and when the pipeline answered failure for a
    file. *)
Theorem exit_status_zero_iff (tool : Tool) (script_dir : Path) (w : World) :
  let imports_dir := imports_of script_dir in
  let code := exit_status tool script_dir w in
  (code = 0 \/ code = 1)%Z
  /\ (code = 0%Z <->
      path_exists (fs w) imports_dir = true
      /\ exists glb_files,
          fst (get_glb_files imports_dir w) = Ok glb_files
          /\ (glb_files = []
              \/ file_results tool glb_files script_dir
                   (loop_start script_dir w glb_files)
                 = map (fun _ => Ok true) glb_files))
  /\ (path_exists (fs w) imports_dir = false -> code = 1%Z)
  /\ (forall glb_files,
         path_exists (fs w) imports_dir = true ->
         fst (get_glb_files imports_dir w) = Ok glb_files ->
         In (Ok false) (file_results tool glb_files script_dir
                          (loop_start script_dir w glb_files)) ->
         code = 1%Z).
Proof.
  intros imports_dir code. subst code. unfold exit_status.
  destruct (run_script_cases tool script_dir w)
    as [[Hex Hrun]
       |[(Hex & e & Hget & Hrun)
        |[(Hex & Hget & Hrun)
         |(Hex & p & rest & Hget & w2 & evs & _
           & [(e & Hin & _ & _ & Hrun)|(Hret & Hlen & Hrun)])]]];
    fold imports_dir in Hex, Hget || fold imports_dir in Hex;
    rewrite Hrun; cbn [fst].
  - split; [auto|]. split; [|split; [reflexivity|]].
    + split; [discriminate|]. intros [H _]. congruence.
    + intros ? H. congruence.
  - split; [auto|]. split; [|split; [reflexivity|]].
    + split; [discriminate|]. intros (_ & l & H & _). congruence.
    + intros ? _ H. congruence.
  - split; [auto|]. split; [|split].
    + split; [|reflexivity]. intros _. split; [exact Hex|].
      exists []. auto.
    + congruence.
    + intros l _ H. rewrite Hget in H. injection H as <-. intros [].
  - split; [auto|]. split; [|split; [reflexivity|]].
    + split; [discriminate|]. intros (_ & l & H & [->|Hall]).
      * rewrite Hget in H. discriminate H.
      * rewrite Hget in H. injection H as <-.
        rewrite Hall in Hin. exfalso. exact (no_raise_in_all_true _ _ Hin).
    + reflexivity.
  - split; [destruct (0 <? failures _)%nat; auto|]. split; [|split].
    + split.
      * intros H0. split; [exact Hex|]. exists (p :: rest).
        split; [exact Hget|]. right.
        apply all_true_of_no_failure; [exact Hret| |exact Hlen].
        destruct (Nat.ltb_spec 0 (failures (file_results tool (p :: rest) script_dir
                     (loop_start script_dir w (p :: rest))))); [discriminate H0 | lia].
      * intros (_ & l & H & [->|Hall]).
        -- rewrite Hget in H. discriminate H.
        -- rewrite Hget in H. injection H as <-.
           rewrite Hall, failures_all_true. reflexivity.
    + congruence.
    + intros l _ H Hin. rewrite Hget in H. injection H as <-.
      apply failures_positive in Hin.
      destruct (Nat.ltb_spec 0 (failures (file_results tool (p :: rest) script_dir
                   (loop_start script_dir w (p :: rest))))); [reflexivity | lia].
Qed.

Lemma exit_status_zero_iff_witness :
  exit_status Sample.tool_ok Sample.app (Sample.start Sample.tree) = 0%Z
  /\ exit_status Sample.tool_ok Sample.app (Sample.start Sample.tree_empty) = 0%Z
  /\ exit_status Sample.tool_ok Sample.app (Sample.start Sample.tree_bare) = 1%Z
  /\ exit_status Sample.tool_webp_b Sample.app (Sample.start Sample.tree) = 1%Z.
Proof.
  split; [|split; [|split]].
  - apply (proj2 (proj1 (proj2 (exit_status_zero_iff Sample.tool_ok Sample.app
                                  (Sample.start Sample.tree))))).
    split; [reflexivity|].
    exists [Sample.imports // "a.glb"; Sample.imports // "b.GLB"].
    split; [vm_compute; reflexivity|]. right. vm_compute. reflexivity.
  - apply (proj2 (proj1 (proj2 (exit_status_zero_iff Sample.tool_ok Sample.app
                                  (Sample.start Sample.tree_empty))))).
    split; [reflexivity|]. exists []. split; [vm_compute; reflexivity | left; reflexivity].
  - apply (proj1 (proj2 (proj2 (exit_status_zero_iff Sample.tool_ok Sample.app
                                  (Sample.start Sample.tree_bare))))).
    reflexivity.
  - apply (proj2 (proj2 (proj2 (exit_status_zero_iff Sample.tool_webp_b Sample.app
                                  (Sample.start Sample.tree))))
             [Sample.imports // "a.glb"; Sample.imports // "b.GLB"]).
    + reflexivity.
    + vm_compute. reflexivity.
    + vm_compute. right; left. reflexivity.
Defined.

(** ** The summary *)

(** C3, as claimed for every run, fails when no file is found: discovery
    answers the empty list, the run ends before the loop with exit status 0,
    and no summary is printed at all. *)
Lemma no_summary_without_files :
  fst (get_glb_files Sample.imports (Sample.start Sample.tree_empty)) = Ok []
  /\ run_script Sample.tool_ok Sample.app (Sample.start Sample.tree_empty)
     = (0%Z, mkWorld Sample.tree_empty
                     [Iterdir Sample.imports;
                      Print "No GLB files found in the imports directory."])
  /\ ~ summary_for_every_run Sample.tool_ok Sample.app
        (Sample.start Sample.tree_empty).
Proof.
  assert (E : run_script Sample.tool_ok Sample.app (Sample.start Sample.tree_empty)
              = (0%Z, mkWorld Sample.tree_empty
                              [Iterdir Sample.imports;
                               Print "No GLB files found in the imports directory."]))
    by (vm_compute; reflexivity).
  split; [vm_compute; reflexivity|]. split; [exact E|].
  intros H.
  destruct (H [] eq_refl ltac:(vm_compute; reflexivity) (Forall_nil _))
    as [[body Hbody] _].
  rewrite E in Hbody. cbn [snd trace] in Hbody.
  apply (f_equal (@List.length event)) in Hbody.
  rewrite !length_app in Hbody. cbn [List.length summary] in Hbody. lia.
Qed.

(** C3, amended: in a run over K > 0 discovered files, each answered by the
    pipeline, F of them with failure, the last lines printed are the summary
    with total K, successful K - F and failed F, followed by the closing
    line when F = 0; the two counters add up to K, and the exit status is 0
    exactly when F = 0. *)
Theorem summary_of_run (tool : Tool) (script_dir : Path) (w : World)
        (glb_files : list Path) :
  let results := file_results tool glb_files script_dir
                   (loop_start script_dir w glb_files) in
  path_exists (fs w) (imports_of script_dir) = true ->
  fst (get_glb_files (imports_of script_dir) w) = Ok glb_files ->
  glb_files <> [] ->
  Forall returned results ->
  reports_summary tool script_dir w glb_files
  /\ (List.length glb_files - failures results) + failures results
     = List.length glb_files.
Proof.
  intros results Hex Hget Hne Hret.
  destruct (run_script_cases tool script_dir w)
    as [[Hex' _]
       |[(_ & e & Hget' & _)
        |[(_ & Hget' & _)
         |(_ & p & rest & Hget' & w2 & evs & Htr
           & [(e & Hin & _)|(_ & Hlen & Hrun)])]]];
    try congruence.
  - rewrite Hget in Hget'. injection Hget' as ->.
    exfalso. exact (raise_not_returned _ _ Hin Hret).
  - rewrite Hget in Hget'. injection Hget' as ->.
    fold results in Hlen, Hrun.
    pose proof (counts_of_returned results Hret) as Hcount.
    assert (Hs : successes results = List.length (p :: rest) - failures results) by lia.
    split; [|lia].
    unfold reports_summary, exit_status. fold results. cbn zeta.
    rewrite Hrun, <- Hs. cbn [fst snd]. split.
    + exists (Iterdir (imports_of script_dir) :: listing (p :: rest) ++ evs).
      unfold extend at 1. cbn [trace]. rewrite Htr.
      unfold loop_start, extend. cbn [trace fs].
      rewrite <- !app_assoc. cbn [app]. rewrite <- ?app_assoc. reflexivity.
    + destruct (Nat.ltb_spec 0 (failures results)); split; intros H0;
        try reflexivity; try discriminate H0; lia.
Qed.

Lemma summary_of_run_witness :
  exists body,
    trace (snd (run_script Sample.tool_webp_b Sample.app (Sample.start Sample.tree)))
    = body ++ [Print (Py.nl ++ Py.repeat_str "=" 60)%string;
               Print "PROCESSING SUMMARY";
               Print (Py.repeat_str "=" 60);
               Print "Total files: 2";
               Print "Successful: 1";
               Print "Failed: 1"].
Proof.
  destruct (summary_of_run Sample.tool_webp_b Sample.app (Sample.start Sample.tree)
              [Sample.imports // "a.glb"; Sample.imports // "b.GLB"]
              eq_refl ltac:(vm_compute; reflexivity) ltac:(discriminate)
              ltac:(vm_compute; repeat constructor; eexists; reflexivity))
    as [[[body Hbody] _] _].
  exists body. rewrite Hbody. vm_compute. reflexivity.
Defined.

(** ** A directory that cannot be created *)

Lemma discovered_named (imports_dir : Path) (w : World) (found : list Path) :
  fst (get_glb_files imports_dir w) = Ok found ->
  forall p, In p found -> name p <> ""%string.
Proof.
  intros Hget p Hin Hname. apply get_glb_files_found in Hget. subst found.
  apply (Permutation_in _ (sorted_permutation path_ltb _)) in Hin.
  apply filter_In in Hin. destruct Hin as [_ Ha]. unfold asset, suffix in Ha.
  rewrite Hname in Ha. apply andb_true_iff in Ha. destruct Ha as [_ Ha].
  vm_compute in Ha. discriminate Ha.
Qed.

(** C1, as claimed, fails where a regular file sits in the place of
    [data/exports]: the stage directories cannot be created, the pipeline of
    the first file raises instead of answering failure, and the second file
    is never taken up. *)
Lemma creation_failure_not_isolated :
  fst (process_glb_file Sample.tool_ok (Sample.imports // "a.glb") Sample.app
         (loop_start Sample.app (Sample.start Sample.tree_blocked)
            [Sample.imports // "a.glb"; Sample.imports // "b.GLB"]))
  = Raise NotADirectoryError
  /\ ~ In (Print "Processing: b.GLB")
          (trace (snd (run_script Sample.tool_ok Sample.app
                         (Sample.start Sample.tree_blocked))))
  /\ ~ creation_failure_isolated Sample.tool_ok Sample.app
        (Sample.start Sample.tree_blocked).
Proof.
  split; [vm_compute; reflexivity|]. split.
  - intros H. vm_compute in H.
    repeat (destruct H as [H|H]; [discriminate H|]). exact H.
  - intros H.
    destruct (H NotADirectoryError (Sample.imports // "a.glb")
                [Sample.imports // "b.GLB"]
                eq_refl ltac:(vm_compute; reflexivity) ltac:(vm_compute; reflexivity))
      as [Hfile _].
    vm_compute in Hfile. discriminate Hfile.
Qed.

(** C1, amended: when the stage directories cannot be created, the error is
    not caught.  Wherever the loop stands, the pipeline of the file raises it
    having printed its banner and spawned nothing, and the loop ends with
    that error whatever its counters and whatever files remain.  When this
    happens at the first discovered file, the run ends there with exit
    status 1: no other file is taken up and no summary is printed. *)
Theorem creation_failure_aborts_run (tool : Tool) (script_dir : Path) (e : exn)
        (file_path : Path) (rest : list Path) :
  (forall w,
      name file_path <> ""%string ->
      ensure_dirs (stage_dirs script_dir) (fs w) = Raise e ->
      exists w1 made,
        trace w1 = trace w ++ banner file_path ++ map Mkdir made
        /\ process_glb_file tool file_path script_dir w = (Raise e, w1)
        /\ forall successful failed,
            process_files tool (file_path :: rest) script_dir successful failed w
            = (Raise e, w1))
  /\ (forall w,
         path_exists (fs w) (imports_of script_dir) = true ->
         fst (get_glb_files (imports_of script_dir) w) = Ok (file_path :: rest) ->
         ensure_dirs (stage_dirs script_dir) (fs w) = Raise e ->
         exists w1 made,
           trace w1 = trace (loop_start script_dir w (file_path :: rest))
                      ++ banner file_path ++ map Mkdir made
           /\ run_script tool script_dir w = (1%Z, w1)).
Proof.
  assert (Hloop : forall w,
             name file_path <> ""%string ->
             ensure_dirs (stage_dirs script_dir) (fs w) = Raise e ->
             exists w1 made,
               trace w1 = trace w ++ banner file_path ++ map Mkdir made
               /\ process_glb_file tool file_path script_dir w = (Raise e, w1)
               /\ forall successful failed,
                   process_files tool (file_path :: rest) script_dir
                     successful failed w
                   = (Raise e, w1)).
  { intros w Hname Hdirs.
    rewrite process_glb_file_eq, (output_dirs_named _ _ Hname).
    destruct (for_each_mkdir_raise (stage_dirs script_dir)
                (extend w (banner file_path)) e Hdirs)
      as (w1 & made & Hrun & Htr & _).
    exists w1, made. cbn [extend trace fs] in Htr.
    rewrite Htr, <- app_assoc. split; [reflexivity|].
    rewrite Hrun. split; [reflexivity|].
    intros s f. apply process_files_raised.
    rewrite process_glb_file_eq, (output_dirs_named _ _ Hname), Hrun.
    reflexivity. }
  split; [exact Hloop|].
  intros w Hex Hget Hdirs.
  assert (Hname : name file_path <> ""%string).
  { eapply discovered_named; [exact Hget | left; reflexivity]. }
  destruct (Hloop (loop_start script_dir w (file_path :: rest)) Hname Hdirs)
    as (w1 & made & Htr & _ & Hfiles).
  exists w1, made. split; [exact Htr|].
  unfold run_script. rewrite main_eq. cbn zeta. rewrite Hex.
  pose proof (get_glb_files_world (imports_of script_dir) w) as Hw.
  destruct (get_glb_files (imports_of script_dir) w) as [r wd].
  cbn [fst snd] in Hget, Hw. subst r wd.
  rewrite extend_extend. cbn [app].
  change (extend w (Iterdir (imports_of script_dir) :: listing (file_path :: rest)))
    with (loop_start script_dir w (file_path :: rest)).
  rewrite (Hfiles 0 0).
  apply ensure_dirs_raise in Hdirs.
  destruct e; try discriminate Hdirs; reflexivity.
Qed.

Lemma creation_failure_aborts_run_witness :
  fst (run_script Sample.tool_ok Sample.app (Sample.start Sample.tree_blocked)) = 1%Z
  /\ spawned (trace (snd (run_script Sample.tool_ok Sample.app
                            (Sample.start Sample.tree_blocked)))) = [].
Proof.
  destruct (proj2 (creation_failure_aborts_run Sample.tool_ok Sample.app
                     NotADirectoryError (Sample.imports // "a.glb")
                     [Sample.imports // "b.GLB"])
              (Sample.start Sample.tree_blocked) eq_refl eq_refl eq_refl)
    as (w1 & made & Htr & Hrun).
  rewrite Hrun. cbn [fst snd]. split; [reflexivity|].
  rewrite Htr, !spawned_app, spawned_mkdirs. reflexivity.
Defined.

(** * Further properties *)

(** ** Directories created on demand *)

Lemma only_adds_dirs_refl (f : FS) : only_adds_dirs f f.
Proof. exists []. rewrite app_nil_r. split; [reflexivity | constructor]. Qed.

Lemma only_adds_dirs_trans (f g h : FS) :
  only_adds_dirs f g -> only_adds_dirs g h -> only_adds_dirs f h.
Proof.
  intros (a1 & -> & H1) (a2 & -> & H2). exists (a1 ++ a2).
  rewrite app_assoc. split; [reflexivity | apply Forall_app; auto].
Qed.

Lemma lookup_dirs (added : FS) (p : Path) :
  Forall (fun entry => snd entry = Directory) added ->
  lookup added p = None \/ lookup added p = Some Directory.
Proof.
  induction 1 as [|[q n] added Hn _ IH]; cbn [lookup]; [left; reflexivity|].
  cbn [snd] in Hn. subst n. destruct (path_eqb q p); auto.
Qed.

(** Adding directories keeps the kind of every path that was there, and a
    path that appears is a directory. *)
Lemma stat_only_adds_dirs (f f' : FS) (p : Path) :
  only_adds_dirs f f' ->
  stat f' p = stat f p \/ (stat f p = None /\ stat f' p = Some Directory).
Proof.
  intros (added & -> & Hadded). destruct p as [|a p]; [left; reflexivity|].
  cbn [stat]. destruct (lookup f (a :: p)) as [n|] eqn:E.
  - left. apply lookup_app_some; exact E.
  - rewrite (lookup_app_none _ _ _ E).
    destruct (lookup_dirs added (a :: p) Hadded) as [H|H]; rewrite H; auto.
Qed.

Lemma only_adds_dirs_keeps (f f' : FS) :
  only_adds_dirs f f' -> keeps_dirs f f'.
Proof.
  intros H p Hp. unfold is_dir in *.
  destruct (stat_only_adds_dirs f f' p H) as [E|[E _]]; rewrite E in *;
    [exact Hp | discriminate Hp].
Qed.

Lemma os_mkdir_only_adds (p : Path) (f f' : FS) :
  os_mkdir p f = Ok f' -> only_adds_dirs f f'.
Proof.
  unfold os_mkdir. destruct (stat f p); [discriminate|].
  destruct (stat f (parent p)) as [[]|]; try discriminate.
  intros H; injection H as <-. exists [(p, Directory)].
  split; [reflexivity | repeat constructor].
Qed.

Lemma mkdir_exist_ok_only_adds (p : Path) (f f' : FS) :
  mkdir_exist_ok p f = Ok f' -> only_adds_dirs f f'.
Proof.
  unfold mkdir_exist_ok. destruct (os_mkdir p f) as [f1|e] eqn:E.
  - intros H; injection H as <-. eapply os_mkdir_only_adds; exact E.
  - destruct e; try discriminate;
      (destruct (is_dir f p); [|discriminate]);
      intros H; injection H as <-; apply only_adds_dirs_refl.
Qed.

Lemma mkdir_parents_rev_only_adds (rp : list string) :
  forall f f', mkdir_parents_rev rp f = Ok f' -> only_adds_dirs f f'.
Proof.
  induction rp as [|a rp IH]; intros f f'; cbn [mkdir_parents_rev];
    destruct (os_mkdir _ f) as [f1|e] eqn:E;
    try (intros H; injection H as <-; eapply os_mkdir_only_adds; exact E);
    destruct e; try discriminate;
    try ((destruct (is_dir f _); [|discriminate]);
         intros H; injection H as <-; apply only_adds_dirs_refl).
  destruct (mkdir_parents_rev rp f) as [f1|] eqn:E1; [|discriminate].
  intros H. eapply only_adds_dirs_trans; [eapply IH; exact E1|].
  eapply mkdir_exist_ok_only_adds; exact H.
Qed.

(** ** What the script does to the file system *)

Lemma ensure_dirs_present (dirs : list Path) (f : FS) :
  Forall (fun d => is_dir f d = true) dirs -> ensure_dirs dirs f = Ok f.
Proof.
  induction 1 as [|d dirs Hd _ IH]; cbn [ensure_dirs]; [reflexivity|].
  rewrite (mkdir_parents_present d f Hd). exact IH.
Qed.

Lemma mkdir_only_adds (p : Path) (w : World) :
  only_adds_dirs (fs w) (fs (snd (mkdir p w))).
Proof.
  unfold mkdir. destruct (mkdir_parents p (fs w)) as [f'|e] eqn:E; cbn [snd fs].
  - unfold mkdir_parents in E. eapply mkdir_parents_rev_only_adds; exact E.
  - apply only_adds_dirs_refl.
Qed.

Lemma for_each_mkdir_only_adds (dirs : list Path) :
  forall w, only_adds_dirs (fs w) (fs (snd (for_each dirs mkdir w))).
Proof.
  induction dirs as [|d dirs IH]; intros w; cbn [for_each].
  - apply only_adds_dirs_refl.
  - unfold bind. pose proof (mkdir_only_adds d w) as H.
    destruct (mkdir d w) as [[[]|e] w1]; cbn [snd] in *; [|exact H].
    eapply only_adds_dirs_trans; [exact H | apply IH].
Qed.

Section InertTool.

Variable tool : Tool.
Hypothesis tool_inert : inert tool.

Lemma run_command_inert (command : list string) (description : string) (w : World) :
  fs (snd (run_command tool command description w)) = fs w.
Proof.
  rewrite run_command_eq. cbn zeta.
  pose proof (tool_inert (trace w ++ announcement command description)
                (fs w) command) as Hi.
  destruct (tool _ (fs w) command) as [rc out err f'| | | |f'];
    cbn [left_behind] in Hi; try reflexivity.
  - rewrite (Hi f' eq_refl). destruct (rc =? 0)%Z; reflexivity.
  - rewrite (Hi f' eq_refl). reflexivity.
Qed.

Lemma run_steps_inert (steps : list (list string * string)) :
  forall w, fs (snd (run_steps tool steps w)) = fs w.
Proof.
  induction steps as [|[argv description] steps IH]; intros w; cbn [run_steps];
    [reflexivity|].
  unfold bind. pose proof (run_command_inert argv description w) as H.
  destruct (run_command tool argv description w) as [[[]|e] w1];
    cbn [snd negb] in *; try exact H.
  rewrite IH. exact H.
Qed.

Lemma process_glb_file_only_adds (input_file base_dir : Path) (w : World) :
  only_adds_dirs (fs w) (fs (snd (process_glb_file tool input_file base_dir w))).
Proof.
  rewrite process_glb_file_eq.
  pose proof (for_each_mkdir_only_adds (output_dirs input_file base_dir)
                (extend w (banner input_file))) as H.
  destruct (for_each (output_dirs input_file base_dir) mkdir
              (extend w (banner input_file))) as [[[]|e] w1];
    cbn [snd extend fs] in *; [|exact H].
  pose proof (run_steps_inert (pipeline_steps input_file base_dir) w1) as H2.
  destruct (run_steps tool (pipeline_steps input_file base_dir) w1)
    as [[[]|e] w2]; cbn [snd extend fs] in *; rewrite H2; exact H.
Qed.

Lemma process_files_only_adds (glb_files : list Path) (script_dir : Path) :
  forall successful failed w,
    only_adds_dirs (fs w)
      (fs (snd (process_files tool glb_files script_dir successful failed w))).
Proof.
  induction glb_files as [|p glb_files IH]; intros s f w; cbn [process_files].
  - apply only_adds_dirs_refl.
  - unfold bind at 1.
    pose proof (process_glb_file_only_adds p script_dir w) as H.
    destruct (process_glb_file tool p script_dir w) as [[[]|e] w1];
      cbn [snd] in *; [| |exact H].
    + eapply only_adds_dirs_trans; [exact H | apply IH].
    + unfold bind, print, emit.
      eapply only_adds_dirs_trans; [exact H|].
      apply (IH s (f + 1)
                (mkWorld (fs w1)
                   (trace w1 ++ [Print ("Failed to process: " ++ name p)%string]))).
Qed.

(** X2: whatever happens in a run with a tool that leaves the file system
    alone, the script itself only ever adds directories: every path that
    was there keeps its kind, and every path that appears is a directory. *)
Theorem run_only_adds_dirs (script_dir : Path) (w : World) :
  let after := fs (snd (run_script tool script_dir w)) in
  only_adds_dirs (fs w) after
  /\ forall p,
      stat after p = stat (fs w) p
      \/ (stat (fs w) p = None /\ stat after p = Some Directory).
Proof.
  intros after.
  assert (H : only_adds_dirs (fs w) after).
  { subst after. unfold run_script. rewrite main_eq. cbn zeta.
    destruct (path_exists (fs w) (imports_of script_dir));
      [|apply only_adds_dirs_refl].
    pose proof (get_glb_files_world (imports_of script_dir) w) as Hw.
    destruct (get_glb_files (imports_of script_dir) w) as [[[|p rest]|e] w1];
      cbn [snd] in Hw; subst w1.
    - apply only_adds_dirs_refl.
    - pose proof (process_files_only_adds (p :: rest) script_dir 0 0
                    (extend (extend w [Iterdir (imports_of script_dir)])
                       (listing (p :: rest)))) as H.
      destruct (process_files tool (p :: rest) script_dir 0 0 _)
        as [[[s f]|e] w2]; cbn [snd extend fs] in *.
      + destruct (0 <? f)%nat; exact H.
      + destruct e; exact H.
    - destruct e; apply only_adds_dirs_refl. }
  split; [exact H|]. intros p. apply stat_only_adds_dirs. exact H.
Qed.

(** After the pipeline the file system is the one the creation of the
    directories has left. *)
Lemma process_glb_file_inert (input_file base_dir : Path) (w : World) (f1 : FS) :
  ensure_dirs (output_dirs input_file base_dir) (fs w) = Ok f1 ->
  fs (snd (process_glb_file tool input_file base_dir w)) = f1.
Proof.
  intros Hdirs. rewrite process_glb_file_eq.
  rewrite (for_each_mkdir_ok _ (extend w (banner input_file)) f1 Hdirs).
  pose proof (run_steps_inert (pipeline_steps input_file base_dir)
                (mkWorld f1 (trace (extend w (banner input_file))
                               ++ map Mkdir (output_dirs input_file base_dir))))
    as Hfs.
  destruct (run_steps tool (pipeline_steps input_file base_dir) _)
    as [[[]|e] w2]; cbn [snd fs extend] in *; exact Hfs.
Qed.

End InertTool.

Lemma tool_ok_inert : inert Sample.tool_ok.
Proof. intros tr f argv f' H. injection H as <-. reflexivity. Qed.

Lemma tool_failing_inert : inert Sample.tool_failing.
Proof. intros tr f argv f' H. injection H as <-. reflexivity. Qed.

Lemma run_only_adds_dirs_witness :
  stat (fs (snd (run_script Sample.tool_ok Sample.app (Sample.start Sample.tree))))
       (Sample.imports // "a.glb") = Some RegularFile
  /\ stat (fs (snd (run_script Sample.tool_ok Sample.app (Sample.start Sample.tree))))
          (Sample.exports // "draco") = Some Directory.
Proof.
  pose proof (proj2 (run_only_adds_dirs Sample.tool_ok tool_ok_inert Sample.app
                       (Sample.start Sample.tree))) as H.
  split.
  - destruct (H (Sample.imports // "a.glb")) as [E|[E _]];
      [rewrite E; reflexivity | discriminate E].
  - destruct (H (Sample.exports // "draco")) as [E|[_ E]]; [|exact E].
    exfalso. vm_compute in E. discriminate E.
Defined.

(** X3: running the pipeline where the three stage directories exist, the
    creation of the directories raises nothing and changes nothing, whatever
    the tool: the three directories are gone through, the first step is
    attempted and the steps run in their order up to the answer or to the
    exception of a command that is not handled.  With a tool that leaves the
    file system alone, the file system is then exactly as it was, whether
    the pipeline answers or raises. *)
Theorem pipeline_rerun_unchanged (tool : Tool) (input_file base_dir : Path)
        (w : World) :
  name input_file <> ""%string ->
  Forall (fun d => is_dir (fs w) d = true) (stage_dirs base_dir) ->
  ensure_dirs (stage_dirs base_dir) (fs w) = Ok (fs w)
  /\ exists r f' evs,
      process_glb_file tool input_file base_dir w
      = (r, mkWorld f' (trace w ++ banner input_file
                          ++ map Mkdir (stage_dirs base_dir) ++ evs))
      /\ steps_shape (map fst (pipeline_steps input_file base_dir)) (spawned evs) r
      /\ spawned evs <> []
      /\ (forall e, r = Raise e -> unhandled e = true)
      /\ (inert tool -> f' = fs w).
Proof.
  intros Hname Hdirs. apply ensure_dirs_present in Hdirs.
  split; [exact Hdirs|].
  pose proof (fun Hi => process_glb_file_inert tool Hi input_file base_dir w) as Hfs.
  destruct (pipeline_shape tool input_file base_dir w)
    as [(e & w1 & made & Hdirs' & _)
       |(f1 & r & f' & evs & Hdirs' & Hrun & Hsteps & _)];
    rewrite (output_dirs_named _ _ Hname) in *.
  - rewrite Hdirs in Hdirs'. discriminate Hdirs'.
  - exists r, f', evs. split; [exact Hrun|]. split; [exact Hsteps|].
    split; [apply (steps_shape_started _ _ _ Hsteps); discriminate|].
    split.
    + intros e ->. exact (steps_shape_raised _ _ _ Hsteps).
    + intros Hi. specialize (Hfs Hi (fs w) Hdirs).
      rewrite Hrun in Hfs. exact Hfs.
Qed.

Lemma pipeline_rerun_unchanged_witness :
  fs (snd (process_glb_file Sample.tool_failing (Sample.imports // "a.glb")
             Sample.app (Sample.start MoreSamples.tree_exported)))
  = MoreSamples.tree_exported.
Proof.
  destruct (pipeline_rerun_unchanged Sample.tool_failing
              (Sample.imports // "a.glb") Sample.app
              (Sample.start MoreSamples.tree_exported))
    as (_ & r & f' & evs & H & _ & _ & _ & Hfs).
  - discriminate.
  - repeat (apply Forall_cons || apply Forall_nil); reflexivity.
  - rewrite H. exact (Hfs tool_failing_inert).
Defined.

(** ** An imports path that is not a directory *)

(** X4: when [data/imports] exists but is not a directory, the existence
    check passes, listing it raises an error that nothing catches, and the
    run ends with exit status 1 without printing, creating or spawning
    anything. *)
Theorem imports_not_a_directory (tool : Tool) (script_dir : Path) (w : World) :
  path_exists (fs w) (imports_of script_dir) = true ->
  is_dir (fs w) (imports_of script_dir) = false ->
  fst (get_glb_files (imports_of script_dir) w) = Raise NotADirectoryError
  /\ run_script tool script_dir w
     = (1%Z, extend w [Iterdir (imports_of script_dir)]).
Proof.
  intros Hex Hdir.
  assert (Hget : fst (get_glb_files (imports_of script_dir) w)
                 = Raise NotADirectoryError).
  { rewrite get_glb_files_eq. unfold path_exists, is_dir in *.
    destruct (stat (fs w) (imports_of script_dir)) as [[]|];
      try discriminate; reflexivity. }
  split; [exact Hget|].
  destruct (run_script_cases tool script_dir w)
    as [[H _]|[(_ & e & _ & H)|[(_ & H & _)|(_ & p & rest & H & _)]]];
    try congruence.
Qed.

Lemma imports_not_a_directory_witness :
  run_script Sample.tool_ok Sample.app
             (Sample.start MoreSamples.tree_imports_file)
  = (1%Z, mkWorld MoreSamples.tree_imports_file [Iterdir Sample.imports]).
Proof.
  exact (proj2 (imports_not_a_directory Sample.tool_ok Sample.app
                  (Sample.start MoreSamples.tree_imports_file) eq_refl eq_refl)).
Defined.

(** ** Discovery does not depend on the order of the listing *)

Lemma permutation_filter {A : Type} (f : A -> bool) (l l' : list A) :
  Permutation l l' -> Permutation (filter f l) (filter f l').
Proof.
  induction 1 as [|x l l' _ IH|x y l|l l' l'' _ IH1 _ IH2]; cbn [filter].
  - constructor.
  - destruct (f x); [constructor|]; exact IH.
  - destruct (f x), (f y); try reflexivity. apply perm_swap.
  - eapply perm_trans; eauto.
Qed.

Lemma permutation_filter_agree {A : Type} (f g : A -> bool) (l l' : list A) :
  Permutation l l' -> (forall x, In x l -> f x = g x) ->
  Permutation (filter f l) (filter g l').
Proof.
  intros Hperm Hfg. rewrite (filter_ext_in f g l Hfg).
  apply permutation_filter. exact Hperm.
Qed.

(** Two lists ordered by an antisymmetric relation that hold the same
    elements are the same list. *)
Lemma sorted_unique {A : Type} (R : A -> A -> Prop) (l1 : list A) :
  forall l2,
    (forall x y, In x l1 -> In y l1 -> R x y -> R y x -> x = y) ->
    StronglySorted R l1 -> StronglySorted R l2 -> Permutation l1 l2 ->
    l1 = l2.
Proof.
  induction l1 as [|a l1 IH]; intros l2 Hanti S1 S2 Hperm.
  - apply Permutation_nil in Hperm. subst. reflexivity.
  - destruct l2 as [|b l2].
    + apply Permutation_sym, Permutation_nil in Hperm. discriminate Hperm.
    + inversion S1 as [|? ? S1' H1]; subst. inversion S2 as [|? ? S2' H2]; subst.
      rewrite Forall_forall in H1, H2.
      assert (Hab : a = b).
      { assert (Ha : In a (b :: l2))
          by (eapply Permutation_in; [exact Hperm | left; reflexivity]).
        assert (Hb : In b (a :: l1))
          by (eapply Permutation_in;
              [apply Permutation_sym; exact Hperm | left; reflexivity]).
        destruct Ha as [Ha|Ha]; [symmetry; exact Ha|].
        destruct Hb as [Hb|Hb]; [exact Hb|].
        apply Hanti; [left; reflexivity | right; exact Hb | apply H1; exact Hb
                     | apply H2; exact Ha]. }
      subst b. f_equal. apply IH; auto.
      * intros x y Hx Hy. apply Hanti; right; assumption.
      * eapply Permutation_cons_inv; exact Hperm.
Qed.

Lemma discovered_sorted (imports_dir : Path) (f : FS) :
  StronglySorted name_le
    (Py.sorted path_ltb (filter (asset f) (children f imports_dir))).
Proof.
  rewrite (siblings_by_name imports_dir (filter (asset f) (children f imports_dir))).
  - rewrite (sorted_map String.ltb path_ltb (fun n => imports_dir ++ [n])).
    + apply sorted_siblings.
    + intros x y. apply path_ltb_siblings.
  - intros p Hp. apply filter_In in Hp. destruct Hp as [Hp _].
    eapply children_spec; exact Hp.
Qed.

(** X5: discovery answers the same list for two states of the directory
    that hold the same entries, listed in whatever order, with the same
    regular files among them. *)
Theorem discovery_order_independent (imports_dir : Path) (w w' : World) :
  is_dir (fs w) imports_dir = true ->
  is_dir (fs w') imports_dir = true ->
  Permutation (children (fs w) imports_dir) (children (fs w') imports_dir) ->
  (forall p, In p (children (fs w) imports_dir) ->
             is_file (fs w) p = is_file (fs w') p) ->
  fst (get_glb_files imports_dir w) = fst (get_glb_files imports_dir w').
Proof.
  intros Hd Hd' Hperm Hfiles.
  rewrite (get_glb_files_dir _ _ Hd), (get_glb_files_dir _ _ Hd'). cbn [fst].
  f_equal.
  set (l := filter (asset (fs w)) (children (fs w) imports_dir)).
  set (l' := filter (asset (fs w')) (children (fs w') imports_dir)).
  assert (Hll' : Permutation l l').
  { apply permutation_filter_agree; [exact Hperm|].
    intros p Hp. unfold asset. rewrite (Hfiles p Hp). reflexivity. }
  apply (sorted_unique name_le).
  - intros x y Hx Hy Hxy Hyx.
    apply (Permutation_in _ (sorted_permutation path_ltb l)) in Hx, Hy.
    apply filter_In in Hx, Hy. destruct Hx as [Hx _], Hy as [Hy _].
    apply children_spec in Hx, Hy. rewrite Hx, Hy. f_equal. f_equal.
    apply String.leb_antisym; assumption.
  - apply discovered_sorted.
  - apply discovered_sorted.
  - rewrite (sorted_permutation path_ltb l), (sorted_permutation path_ltb l').
    exact Hll'.
Qed.

Lemma discovery_order_independent_witness :
  fst (get_glb_files Sample.imports (Sample.start MoreSamples.tree_shuffled))
  = Ok [Sample.imports // "a.glb"; Sample.imports // "b.GLB"].
Proof.
  rewrite <- (discovery_order_independent Sample.imports
                (Sample.start Sample.tree) (Sample.start MoreSamples.tree_shuffled)
                eq_refl eq_refl).
  - vm_compute. reflexivity.
  - vm_compute.
    apply Permutation_cons_app with (l1 := [_; _; _; _]) (l2 := []).
    apply Permutation_cons_app with (l1 := [_; _; _]) (l2 := []).
    apply Permutation_cons_app with (l1 := [_]) (l2 := [_]).
    apply Permutation_cons_app with (l1 := [_]) (l2 := []).
    apply Permutation_refl.
  - intros p Hp. vm_compute in Hp.
    repeat (destruct Hp as [<-|Hp]; [vm_compute; reflexivity|]). destruct Hp.
Defined.

(** ** How many commands a run spawns *)

Lemma step_run_length cmds sp b :
  step_run cmds sp b ->
  List.length sp <= List.length cmds
  /\ (b = true -> List.length sp = List.length cmds)
  /\ (b = false -> 1 <= List.length sp).
Proof.
  induction 1 as [|argv rest sp b _ (IH1 & IH2 & IH3)|argv rest st _];
    cbn [List.length].
  - repeat split; auto; discriminate.
  - repeat split; [lia | intros Hb; rewrite (IH2 Hb); reflexivity | lia].
  - repeat split; [lia | discriminate | lia].
Qed.

Section Counting.

Variable tool : Tool.

(** The run from the loop on, once the files are known. *)
Lemma run_script_of_loop (script_dir : Path) (w : World) (p : Path) (rest : list Path) :
  path_exists (fs w) (imports_of script_dir) = true ->
  fst (get_glb_files (imports_of script_dir) w) = Ok (p :: rest) ->
  run_script tool script_dir w =
  match process_files tool (p :: rest) script_dir 0 0
          (loop_start script_dir w (p :: rest)) with
  | (Ok (successful, failed), w2) =>
      ((if (0 <? failed)%nat then 1 else 0)%Z,
       extend w2 (summary (List.length (p :: rest)) successful failed
                  ++ closing failed))
  | (Raise e, w2) =>
      (match e with SystemExit code => code | _ => 1%Z end, w2)
  end.
Proof.
  intros Hex Hget. unfold run_script. rewrite main_eq. cbn zeta. rewrite Hex.
  pose proof (get_glb_files_world (imports_of script_dir) w) as Hw.
  destruct (get_glb_files (imports_of script_dir) w) as [r wd].
  cbn [fst snd] in Hget, Hw. subst r wd.
  rewrite extend_extend. cbn [app].
  change (extend w (Iterdir (imports_of script_dir) :: listing (p :: rest)))
    with (loop_start script_dir w (p :: rest)).
  destruct (process_files tool (p :: rest) script_dir 0 0 _) as [[[s f]|e] w2].
  - destruct (0 <? f)%nat; reflexivity.
  - destruct e; reflexivity.
Qed.

(** Each file answered with success accounts for three commands, each file
    answered with failure for one to three, and a file whose pipeline
    raises for three at most. *)
Lemma process_files_spawn_count (glb_files : list Path) (script_dir : Path) :
  forall successful failed w,
  exists evs,
    trace (snd (process_files tool glb_files script_dir successful failed w))
    = trace w ++ evs
    /\ List.length (spawned evs) <= 3 * List.length glb_files
    /\ forall successful' failed',
        fst (process_files tool glb_files script_dir successful failed w)
        = Ok (successful', failed') ->
        exists ds df,
          successful' = successful + ds /\ failed' = failed + df
          /\ ds + df = List.length glb_files
          /\ 3 * ds + df <= List.length (spawned evs)
          /\ List.length (spawned evs) <= 3 * ds + 3 * df.
Proof.
  induction glb_files as [|p glb_files IH]; intros s f w.
  - exists []. cbn [process_files]. unfold ret. cbn [fst snd spawned List.length].
    rewrite app_nil_r. split; [reflexivity|]. split; [lia|].
    intros s' f' H. injection H as <- <-. exists 0, 0. lia.
  - destruct (pipeline_cases tool p script_dir w)
      as [(e & w1 & made & _ & Hrun & Htr & _)
         |[(f1 & b & f' & evs & _ & Hrun & Hsteps & _)
          |(f1 & e & f' & evs & _ & Hrun & _ & Hsteps & _)]].
    + exists (banner p ++ map Mkdir made).
      rewrite (process_files_raised _ _ _ _ _ _ _ _ _ Hrun). cbn [fst snd].
      split; [exact Htr|].
      rewrite spawned_app, spawned_mkdirs. cbn [spawned banner app List.length].
      split; [lia | intros ? ? H; discriminate H].
    + apply step_run_length in Hsteps. cbn [List.length map pipeline_steps] in Hsteps.
      destruct Hsteps as (Hle & Htrue & Hfalse).
      destruct b.
      * rewrite (process_files_succeeded _ _ _ _ _ _ _ _ Hrun).
        destruct (IH (s + 1) f
                     (mkWorld f' (trace w ++ banner p
                                    ++ map Mkdir (output_dirs p script_dir) ++ evs)))
          as (evs' & Htr' & Hbound & Hcount).
        exists ((banner p ++ map Mkdir (output_dirs p script_dir) ++ evs) ++ evs').
        cbn [trace] in Htr'. rewrite Htr', <- !app_assoc.
        split; [reflexivity|].
        rewrite !spawned_app, spawned_mkdirs. cbn [spawned banner app].
        rewrite length_app, (Htrue eq_refl). cbn [List.length].
        split; [lia|]. intros s' f'' H.
        destruct (Hcount s' f'' H) as (ds & df & -> & -> & H1 & H2 & H3).
        exists (S ds), df. lia.
      * rewrite (process_files_failed _ _ _ _ _ _ _ _ Hrun).
        destruct (IH s (f + 1)
                     (extend (mkWorld f' (trace w ++ banner p
                                            ++ map Mkdir (output_dirs p script_dir)
                                            ++ evs))
                        [Print ("Failed to process: " ++ name p)%string]))
          as (evs' & Htr' & Hbound & Hcount).
        exists ((banner p ++ map Mkdir (output_dirs p script_dir) ++ evs)
                ++ Print ("Failed to process: " ++ name p)%string :: evs').
        cbn [extend trace] in Htr'. rewrite Htr', <- !app_assoc.
        split; [reflexivity|].
        rewrite !spawned_app, spawned_mkdirs. cbn [spawned banner app].
        rewrite length_app. specialize (Hfalse eq_refl). cbn [List.length].
        split; [lia|]. intros s' f'' H.
        destruct (Hcount s' f'' H) as (ds & df & -> & -> & H1 & H2 & H3).
        exists ds, (S df). lia.
    + exists (banner p ++ map Mkdir (output_dirs p script_dir) ++ evs).
      rewrite (process_files_raised _ _ _ _ _ _ _ _ _ Hrun). cbn [fst snd trace].
      split; [reflexivity|].
      rewrite !spawned_app, spawned_mkdirs. cbn [spawned banner app].
      apply steps_shape_length in Hsteps.
      cbn [List.length map pipeline_steps] in Hsteps.
      split; [cbn [List.length]; lia | intros ? ? H; discriminate H].
Qed.

(** X6: a run never spawns more than three commands for each discovered
    file: no step and no file is tried again.  A run that exits with status
    0 has spawned exactly three for each. *)
Theorem spawn_count_bounds (script_dir : Path) (w : World) (glb_files : list Path) :
  path_exists (fs w) (imports_of script_dir) = true ->
  fst (get_glb_files (imports_of script_dir) w) = Ok glb_files ->
  exists evs,
    trace (snd (run_script tool script_dir w)) = trace w ++ evs
    /\ List.length (spawned evs) <= 3 * List.length glb_files
    /\ (exit_status tool script_dir w = 0%Z ->
        List.length (spawned evs) = 3 * List.length glb_files).
Proof.
  intros Hex Hget. unfold exit_status. destruct glb_files as [|p rest].
  - destruct (run_script_cases tool script_dir w)
      as [[H _]|[(_ & e & H & _)|[(_ & _ & Hrun)|(_ & q & l & H & _)]]];
      try congruence.
    rewrite Hrun. exists [Iterdir (imports_of script_dir);
                          Print "No GLB files found in the imports directory."].
    cbn [snd fst extend trace spawned List.length]. auto.
  - rewrite (run_script_of_loop script_dir w p rest Hex Hget).
    destruct (process_files_spawn_count (p :: rest) script_dir 0 0
                (loop_start script_dir w (p :: rest)))
      as (evs & Htr & Hbound & Hcount).
    destruct (process_files tool (p :: rest) script_dir 0 0
                (loop_start script_dir w (p :: rest))) as [[[s f]|e] w2] eqn:Hpf;
      cbn [fst snd] in *.
    + exists (Iterdir (imports_of script_dir) :: listing (p :: rest) ++ evs
              ++ summary (List.length (p :: rest)) s f ++ closing f).
      unfold extend at 1. cbn [trace]. rewrite Htr.
      unfold loop_start, extend. cbn [trace fs].
      rewrite <- !app_assoc. cbn [app].
      split; [rewrite <- ?app_assoc; reflexivity|].
      assert (Hsp : spawned (Iterdir (imports_of script_dir)
                               :: listing (p :: rest) ++ evs
                               ++ summary (List.length (p :: rest)) s f ++ closing f)
                    = spawned evs).
      { cbn [spawned]. rewrite !spawned_app, spawned_listing.
        unfold closing. destruct (0 <? f)%nat; cbn [spawned summary app];
          rewrite app_nil_r; reflexivity. }
      rewrite Hsp. split; [exact Hbound|].
      destruct (Hcount s f eq_refl) as (ds & df & -> & -> & H1 & H2 & H3).
      cbn [Nat.add]. destruct (Nat.ltb_spec 0 df); [discriminate|].
      intros _. cbn [List.length] in *. lia.
    + exists (Iterdir (imports_of script_dir) :: listing (p :: rest) ++ evs).
      rewrite Htr. unfold loop_start, extend. cbn [trace fs].
      rewrite <- !app_assoc. cbn [app]. split; [reflexivity|].
      cbn [spawned]. rewrite spawned_app, spawned_listing. cbn [app].
      split; [exact Hbound|]. intros H0.
      pose proof (process_files_cases tool (p :: rest) script_dir 0 0
                    (loop_start script_dir w (p :: rest))) as Hcases.
      cbn zeta in Hcases. rewrite Hpf in Hcases.
      destruct Hcases as (w' & evs' & _ & [(e' & Hp & _ & Hos)|(Hp & _)]);
        [|discriminate Hp].
      injection Hp as -> _.
      destruct e'; try discriminate Hos; discriminate H0.
Qed.

End Counting.

Lemma spawn_count_bounds_witness :
  exists evs,
    trace (snd (run_script Sample.tool_webp_b Sample.app (Sample.start Sample.tree)))
    = evs
    /\ List.length (spawned evs) <= 6.
Proof.
  destruct (spawn_count_bounds Sample.tool_webp_b Sample.app
              (Sample.start Sample.tree)
              [Sample.imports // "a.glb"; Sample.imports // "b.GLB"]
              eq_refl ltac:(vm_compute; reflexivity))
    as (evs & Htr & Hbound & _).
  exists evs. split; [exact Htr | exact Hbound].
Defined.

(** ** Runs in which every command fails, or every command succeeds *)

Section UniformTools.

Variable tool : Tool.
Hypothesis tool_preserves : preserves_dirs tool.

Lemma run_command_never (command : list string) (description : string) (w : World) :
  never_succeeds tool ->
  exists f' evs,
    run_command tool command description w = (Ok false, mkWorld f' (trace w ++ evs))
    /\ map fst (spawned evs) = [command]
    /\ keeps_dirs (fs w) f'.
Proof.
  intros Hnever. rewrite run_command_eq. cbn zeta.
  pose proof (Hnever (trace w ++ announcement command description) (fs w) command)
    as Hn.
  pose proof (tool_preserves (trace w ++ announcement command description)
                (fs w) command) as Hp.
  destruct (tool _ (fs w) command) as [rc out err f'| | | |f'];
    try contradiction; cbn [left_behind] in Hp.
  - destruct (Z.eqb_spec rc 0) as [->|Hrc]; [contradiction|].
    exists f', (announcement command description
                ++ Spawn command (ExitStatus rc) :: failure_report description rc out err).
    rewrite <- app_assoc. split; [reflexivity|]. split.
    + rewrite spawned_app. unfold failure_report. cbn [spawned app announcement].
      rewrite spawned_app, !spawned_captured. reflexivity.
    + exact (Hp f' eq_refl).
  - exists (fs w), (announcement command description
                    ++ Spawn command NotFound :: unavailable_report).
    rewrite <- app_assoc. split; [reflexivity|].
    split; [reflexivity | apply keeps_dirs_refl].
Qed.

Lemma run_command_always (command : list string) (description : string) (w : World) :
  always_succeeds tool ->
  exists f' evs,
    run_command tool command description w = (Ok true, mkWorld f' (trace w ++ evs))
    /\ spawned evs = [(command, ExitStatus 0)]
    /\ keeps_dirs (fs w) f'.
Proof.
  intros Halways. rewrite run_command_eq. cbn zeta.
  destruct (Halways (trace w ++ announcement command description) (fs w) command)
    as (out & err & f' & E).
  rewrite E. cbn [Z.eqb].
  exists f', (announcement command description
              ++ Spawn command (ExitStatus 0) :: success_report description out).
  rewrite <- app_assoc. split; [reflexivity|]. split.
  - rewrite spawned_app. unfold success_report. cbn [spawned app announcement].
    rewrite spawned_captured. reflexivity.
  - apply (tool_preserves (trace w ++ announcement command description)
             (fs w) command).
    rewrite E. reflexivity.
Qed.

Lemma run_steps_always (steps : list (list string * string)) :
  always_succeeds tool ->
  forall w, exists f' evs,
    run_steps tool steps w = (Ok true, mkWorld f' (trace w ++ evs))
    /\ spawned evs = map (fun step => (fst step, ExitStatus 0)) steps
    /\ keeps_dirs (fs w) f'.
Proof.
  intros Halways.
  induction steps as [|[argv description] steps IH]; intros w; cbn [run_steps map fst].
  - exists (fs w), []. rewrite app_nil_r. unfold ret.
    split; [destruct w; reflexivity|]. split; [reflexivity | apply keeps_dirs_refl].
  - unfold bind.
    destruct (run_command_always argv description w Halways)
      as (f1 & evs1 & Hrun & Hsp & Hk).
    rewrite Hrun. cbn [negb].
    destruct (IH (mkWorld f1 (trace w ++ evs1))) as (f2 & evs2 & H2 & S2 & K2).
    exists f2, (evs1 ++ evs2). rewrite H2. cbn [trace fs] in *.
    rewrite <- app_assoc. split; [reflexivity|]. split.
    + rewrite spawned_app, Hsp, S2. reflexivity.
    + eapply keeps_dirs_trans; eauto.
Qed.

(** The directories stay creatable from one file to the next. *)
Lemma ensure_dirs_again (dirs : list Path) (f f1 f' : FS) :
  ensure_dirs dirs f = Ok f1 -> keeps_dirs f1 f' ->
  ensure_dirs dirs f' = Ok f'.
Proof.
  intros H Hk. apply ensure_dirs_ok in H. destruct H as [Hall _].
  apply ensure_dirs_present. eapply Forall_impl; [|exact Hall].
  intros d Hd. apply Hk; exact Hd.
Qed.

Lemma pipeline_never (input_file base_dir : Path) (w : World) (f1 : FS) :
  never_succeeds tool ->
  name input_file <> ""%string ->
  ensure_dirs (stage_dirs base_dir) (fs w) = Ok f1 ->
  exists f' evs,
    process_glb_file tool input_file base_dir w
    = (Ok false, mkWorld f' (trace w ++ evs))
    /\ map fst (spawned evs) = first_steps base_dir [input_file]
    /\ keeps_dirs f1 f'.
Proof.
  intros Hnever Hname Hdirs.
  rewrite process_glb_file_eq, (output_dirs_named _ _ Hname).
  rewrite (for_each_mkdir_ok _ (extend w (banner input_file)) f1 Hdirs).
  cbn [extend trace fs]. unfold pipeline_steps at 1. cbn [run_steps].
  unfold bind.
  match goal with
  | |- context [run_command tool ?c ?d ?w0] =>
      destruct (run_command_never c d w0 Hnever) as (f' & evs & Hrun & Hsp & Hk)
  end.
  rewrite Hrun. cbn [negb]. unfold ret.
  exists f', (banner input_file ++ map Mkdir (stage_dirs base_dir) ++ evs).
  cbn [trace fs] in *. rewrite <- !app_assoc. split; [reflexivity|]. split.
  - rewrite !spawned_app, spawned_mkdirs. cbn [spawned banner app].
    rewrite Hsp. reflexivity.
  - exact Hk.
Qed.

Lemma pipeline_always (input_file base_dir : Path) (w : World) (f1 : FS) :
  always_succeeds tool ->
  name input_file <> ""%string ->
  ensure_dirs (stage_dirs base_dir) (fs w) = Ok f1 ->
  exists f' evs,
    process_glb_file tool input_file base_dir w
    = (Ok true, mkWorld f' (trace w ++ evs))
    /\ spawned evs
       = map (fun argv => (argv, ExitStatus 0)) (all_steps base_dir [input_file])
    /\ keeps_dirs f1 f'.
Proof.
  intros Halways Hname Hdirs.
  rewrite process_glb_file_eq, (output_dirs_named _ _ Hname).
  rewrite (for_each_mkdir_ok _ (extend w (banner input_file)) f1 Hdirs).
  match goal with
  | |- context [run_steps tool ?steps ?w0] =>
      destruct (run_steps_always steps Halways w0) as (f' & evs & Hrun & Hsp & Hk)
  end.
  rewrite Hrun. unfold extend. cbn [trace fs] in *.
  exists f', (banner input_file ++ map Mkdir (stage_dirs base_dir) ++ evs
              ++ [Print ("✓ Successfully processed: " ++ name input_file)%string]).
  rewrite <- !app_assoc. split; [reflexivity|]. split; [|exact Hk].
  rewrite !spawned_app, spawned_mkdirs. cbn [spawned banner app].
  rewrite app_nil_r, Hsp. unfold all_steps. cbn [flat_map].
  rewrite app_nil_r, map_map. reflexivity.
Qed.

Lemma process_files_never (glb_files : list Path) (script_dir : Path) :
  never_succeeds tool ->
  Forall (fun p => name p <> ""%string) glb_files ->
  forall successful failed w f1,
    ensure_dirs (stage_dirs script_dir) (fs w) = Ok f1 ->
    exists w' evs,
      process_files tool glb_files script_dir successful failed w
      = (Ok (successful, failed + List.length glb_files), w')
      /\ trace w' = trace w ++ evs
      /\ map fst (spawned evs) = first_steps script_dir glb_files.
Proof.
  intros Hnever Hnames.
  induction Hnames as [|p glb_files Hp _ IH]; intros s f w f1 Hdirs.
  - exists w, []. cbn [process_files List.length]. unfold ret.
    rewrite app_nil_r, Nat.add_0_r. auto.
  - destruct (pipeline_never p script_dir w f1 Hnever Hp Hdirs)
      as (f' & evs & Hrun & Hsp & Hk).
    rewrite (process_files_failed _ _ _ _ _ _ _ _ Hrun).
    destruct (IH s (f + 1)
                 (extend (mkWorld f' (trace w ++ evs))
                    [Print ("Failed to process: " ++ name p)%string]) f')
      as (w' & evs' & Hfiles & Htr & Hsp').
    { cbn [extend fs]. eapply ensure_dirs_again; eauto. }
    exists w', (evs ++ Print ("Failed to process: " ++ name p)%string :: evs').
    rewrite Hfiles. cbn [List.length]. split; [do 3 f_equal; lia|].
    cbn [extend trace] in Htr. rewrite Htr, <- !app_assoc. split; [reflexivity|].
    rewrite spawned_app. cbn [spawned]. rewrite map_app, Hsp, Hsp'. reflexivity.
Qed.

Lemma process_files_always (glb_files : list Path) (script_dir : Path) :
  always_succeeds tool ->
  Forall (fun p => name p <> ""%string) glb_files ->
  forall successful failed w f1,
    ensure_dirs (stage_dirs script_dir) (fs w) = Ok f1 ->
    exists w' evs,
      process_files tool glb_files script_dir successful failed w
      = (Ok (successful + List.length glb_files, failed), w')
      /\ trace w' = trace w ++ evs
      /\ spawned evs
         = map (fun argv => (argv, ExitStatus 0)) (all_steps script_dir glb_files).
Proof.
  intros Halways Hnames.
  induction Hnames as [|p glb_files Hp _ IH]; intros s f w f1 Hdirs.
  - exists w, []. cbn [process_files List.length]. unfold ret.
    rewrite app_nil_r, Nat.add_0_r. auto.
  - destruct (pipeline_always p script_dir w f1 Halways Hp Hdirs)
      as (f' & evs & Hrun & Hsp & Hk).
    rewrite (process_files_succeeded _ _ _ _ _ _ _ _ Hrun).
    destruct (IH (s + 1) f (mkWorld f' (trace w ++ evs)) f')
      as (w' & evs' & Hfiles & Htr & Hsp').
    { cbn [fs]. eapply ensure_dirs_again; eauto. }
    exists w', (evs ++ evs').
    rewrite Hfiles. cbn [List.length]. split; [do 3 f_equal; lia|].
    cbn [trace] in Htr. rewrite Htr, <- !app_assoc. split; [reflexivity|].
    rewrite spawned_app, Hsp, Hsp'. unfold all_steps. cbn [flat_map].
    rewrite app_nil_r, <- map_app. reflexivity.
Qed.

End UniformTools.

Lemma discovered_all_named (imports_dir : Path) (w : World) (found : list Path) :
  fst (get_glb_files imports_dir w) = Ok found ->
  Forall (fun p => name p <> ""%string) found.
Proof.
  intros H. apply Forall_forall. intros p Hp.
  eapply discovered_named; eauto.
Qed.

(** X7: when no command ever exits with status 0 (the tool is missing, or
    fails each time), the run does not stop at the first file: for every
    discovered file, in their order, it spawns the first step and nothing
    more, then reports all of them as failed and exits with status 1. *)
Theorem run_when_every_command_fails (tool : Tool) (script_dir : Path) (w : World)
        (glb_files : list Path) (f1 : FS) :
  preserves_dirs tool -> never_succeeds tool ->
  path_exists (fs w) (imports_of script_dir) = true ->
  fst (get_glb_files (imports_of script_dir) w) = Ok glb_files ->
  glb_files <> [] ->
  ensure_dirs (stage_dirs script_dir) (fs w) = Ok f1 ->
  exists evs,
    trace (snd (run_script tool script_dir w))
    = trace w ++ Iterdir (imports_of script_dir) :: listing glb_files ++ evs
      ++ summary (List.length glb_files) 0 (List.length glb_files)
    /\ map fst (spawned evs) = first_steps script_dir glb_files
    /\ exit_status tool script_dir w = 1%Z.
Proof.
  intros Hpres Hnever Hex Hget Hne Hdirs.
  destruct glb_files as [|p rest]; [contradiction|].
  destruct (process_files_never tool Hpres (p :: rest) script_dir Hnever
              (discovered_all_named _ _ _ Hget) 0 0
              (loop_start script_dir w (p :: rest)) f1 Hdirs)
    as (w' & evs & Hfiles & Htr & Hsp).
  unfold exit_status.
  rewrite (run_script_of_loop tool script_dir w p rest Hex Hget), Hfiles.
  exists evs. cbn [fst snd Nat.add List.length Nat.ltb Nat.leb closing].
  split; [|split; [exact Hsp | reflexivity]].
  unfold extend at 1. cbn [trace]. rewrite Htr.
  unfold loop_start, extend, closing. cbn [trace fs Nat.ltb Nat.leb List.length].
  rewrite <- !app_assoc. cbn [app]. rewrite <- ?app_assoc, ?app_nil_r. reflexivity.
Qed.

Lemma tool_missing_preserves : preserves_dirs Sample.tool_missing.
Proof. intros tr f argv f' H. discriminate H. Qed.

Lemma run_when_every_command_fails_witness :
  exit_status Sample.tool_missing Sample.app (Sample.start Sample.tree) = 1%Z
  /\ map fst (spawned (trace (snd (run_script Sample.tool_missing Sample.app
                                     (Sample.start Sample.tree)))))
     = first_steps Sample.app [Sample.imports // "a.glb"; Sample.imports // "b.GLB"].
Proof.
  destruct (ensure_dirs (stage_dirs Sample.app) Sample.tree) as [f1|e] eqn:Hdirs;
    [|vm_compute in Hdirs; discriminate Hdirs].
  destruct (run_when_every_command_fails Sample.tool_missing Sample.app
              (Sample.start Sample.tree)
              [Sample.imports // "a.glb"; Sample.imports // "b.GLB"] f1
              tool_missing_preserves
              ltac:(intros tr f argv; exact I)
              eq_refl ltac:(vm_compute; reflexivity) ltac:(discriminate) Hdirs)
    as (evs & Htr & Hsp & Hexit).
  split; [exact Hexit|].
  rewrite Htr. cbn [Sample.start trace app spawned].
  rewrite !spawned_app, spawned_listing. cbn [spawned summary app].
  rewrite app_nil_r. exact Hsp.
Defined.

(** X8: when every command exits with status 0, the run spawns the three
    steps of every discovered file, file after file in their order, reports
    all of them as successful and exits with status 0. *)
Theorem run_when_every_command_succeeds (tool : Tool) (script_dir : Path)
        (w : World) (glb_files : list Path) (f1 : FS) :
  preserves_dirs tool -> always_succeeds tool ->
  path_exists (fs w) (imports_of script_dir) = true ->
  fst (get_glb_files (imports_of script_dir) w) = Ok glb_files ->
  glb_files <> [] ->
  ensure_dirs (stage_dirs script_dir) (fs w) = Ok f1 ->
  exists evs,
    trace (snd (run_script tool script_dir w))
    = trace w ++ Iterdir (imports_of script_dir) :: listing glb_files ++ evs
      ++ summary (List.length glb_files) (List.length glb_files) 0
      ++ [Print "All files processed successfully!"]
    /\ spawned evs
       = map (fun argv => (argv, ExitStatus 0)) (all_steps script_dir glb_files)
    /\ exit_status tool script_dir w = 0%Z.
Proof.
  intros Hpres Halways Hex Hget Hne Hdirs.
  destruct glb_files as [|p rest]; [contradiction|].
  destruct (process_files_always tool Hpres (p :: rest) script_dir Halways
              (discovered_all_named _ _ _ Hget) 0 0
              (loop_start script_dir w (p :: rest)) f1 Hdirs)
    as (w' & evs & Hfiles & Htr & Hsp).
  unfold exit_status.
  rewrite (run_script_of_loop tool script_dir w p rest Hex Hget), Hfiles.
  exists evs. cbn [fst snd Nat.add Nat.ltb Nat.leb closing].
  split; [|split; [exact Hsp | reflexivity]].
  unfold extend at 1. cbn [trace]. rewrite Htr.
  unfold loop_start, extend, closing. cbn [trace fs Nat.ltb Nat.leb].
  rewrite <- !app_assoc. cbn [app]. rewrite <- ?app_assoc. reflexivity.
Qed.

Lemma tool_ok_preserves : preserves_dirs Sample.tool_ok.
Proof.
  intros tr f argv f' H. injection H as <-. apply keeps_dirs_refl.
Qed.

Lemma run_when_every_command_succeeds_witness :
  exit_status Sample.tool_ok Sample.app (Sample.start Sample.tree) = 0%Z
  /\ map fst (spawned (trace (snd (run_script Sample.tool_ok Sample.app
                                     (Sample.start Sample.tree)))))
     = all_steps Sample.app [Sample.imports // "a.glb"; Sample.imports // "b.GLB"].
Proof.
  destruct (ensure_dirs (stage_dirs Sample.app) Sample.tree) as [f1|e] eqn:Hdirs;
    [|vm_compute in Hdirs; discriminate Hdirs].
  destruct (run_when_every_command_succeeds Sample.tool_ok Sample.app
              (Sample.start Sample.tree)
              [Sample.imports // "a.glb"; Sample.imports // "b.GLB"] f1
              tool_ok_preserves
              ltac:(intros tr f argv; exists "done"%string, ""%string, f; reflexivity)
              eq_refl ltac:(vm_compute; reflexivity) ltac:(discriminate) Hdirs)
    as (evs & Htr & Hsp & Hexit).
  split; [exact Hexit|].
  rewrite Htr. cbn [Sample.start trace app spawned].
  rewrite !spawned_app, spawned_listing. cbn [spawned summary app].
  rewrite app_nil_r, Hsp, map_map. cbn [fst]. apply map_id.
Defined.

(** ** The commands of a run, file by file *)

Section FileByFile.

Variable tool : Tool.

Lemma process_files_file_by_file (glb_files : list Path) (script_dir : Path) :
  forall successful failed w,
    let results := file_results tool glb_files script_dir w in
    Forall returned results ->
    exists w' evs sps,
      process_files tool glb_files script_dir successful failed w
      = (Ok (successful + successes results, failed + failures results), w')
      /\ trace w' = trace w ++ evs
      /\ spawned evs = concat sps
      /\ Forall2 (fun file_result sp =>
                    exists b, snd file_result = Ok b
                              /\ step_run (map fst (pipeline_steps (fst file_result)
                                                      script_dir)) sp b)
                 (combine glb_files results) sps.
Proof.
  induction glb_files as [|p glb_files IH]; intros s f w; cbn [file_results].
  - intros _. exists w, [], []. cbn [process_files combine concat spawned].
    unfold ret, successes, failures. cbn [filter List.length].
    rewrite !Nat.add_0_r, app_nil_r. repeat split. constructor.
  - destruct (pipeline_cases tool p script_dir w)
      as [(e & w1 & made & _ & Hrun & _)
         |[(f1 & b & f' & evs & _ & Hrun & Hsteps & _)
          |(f1 & e & f' & evs & _ & Hrun & _)]]; rewrite Hrun.
    + intros Hret. destruct (Forall_inv Hret) as [b Hb]. discriminate Hb.
    + destruct b; cbv zeta; intros Hret; pose proof (Forall_inv_tail Hret) as Hrest.
      * rewrite (process_files_succeeded _ _ _ _ _ _ _ _ Hrun).
        destruct (IH (s + 1) f _ Hrest) as (w' & evs' & sps & Hfiles & Htr & Hsp & Hall).
        exists w', ((banner p ++ map Mkdir (output_dirs p script_dir) ++ evs) ++ evs'),
               (spawned evs :: sps).
        rewrite Hfiles. unfold successes, failures. cbn [filter List.length].
        split; [do 3 f_equal; unfold successes; lia|].
        cbn [trace] in Htr. rewrite Htr, <- !app_assoc. split; [reflexivity|].
        split.
        -- rewrite !spawned_app, spawned_mkdirs, Hsp. reflexivity.
        -- cbn [combine]. constructor; [|exact Hall].
           exists true. cbn [fst snd]. auto.
      * rewrite (process_files_failed _ _ _ _ _ _ _ _ Hrun).
        destruct (IH s (f + 1) _ Hrest) as (w' & evs' & sps & Hfiles & Htr & Hsp & Hall).
        exists w', ((banner p ++ map Mkdir (output_dirs p script_dir) ++ evs)
                    ++ Print ("Failed to process: " ++ name p)%string :: evs'),
               (spawned evs :: sps).
        rewrite Hfiles. unfold successes, failures. cbn [filter List.length].
        split; [do 3 f_equal; unfold failures; lia|].
        cbn [extend trace] in Htr. rewrite Htr, <- !app_assoc. split; [reflexivity|].
        split.
        -- rewrite !spawned_app, spawned_mkdirs. cbn [spawned banner app concat].
           rewrite Hsp. reflexivity.
        -- cbn [combine]. constructor; [|exact Hall].
           exists false. cbn [fst snd]. auto.
    + intros Hret. destruct (Forall_inv Hret) as [b Hb]. discriminate Hb.
Qed.

(** X9: in a run in which the pipeline answers for every discovered file,
    the commands spawned are, file after file in the order of discovery,
    the commands of that file's steps as far as they went: all three in
    order when the file was answered with success, and up to the first one
    that did not exit with status 0 when it was answered with failure.  The
    run then ends with the summary of these answers. *)
Theorem run_commands_file_by_file (script_dir : Path) (w : World)
        (glb_files : list Path) :
  let results := file_results tool glb_files script_dir
                   (loop_start script_dir w glb_files) in
  path_exists (fs w) (imports_of script_dir) = true ->
  fst (get_glb_files (imports_of script_dir) w) = Ok glb_files ->
  glb_files <> [] ->
  Forall returned results ->
  exists evs sps,
    trace (snd (run_script tool script_dir w))
    = trace w ++ Iterdir (imports_of script_dir) :: listing glb_files ++ evs
      ++ summary (List.length glb_files) (successes results) (failures results)
      ++ closing (failures results)
    /\ spawned evs = concat sps
    /\ Forall2 (fun file_result sp =>
                  exists b, snd file_result = Ok b
                            /\ step_run (map fst (pipeline_steps (fst file_result)
                                                    script_dir)) sp b)
               (combine glb_files results) sps.
Proof.
  intros results Hex Hget Hne Hret.
  destruct glb_files as [|p rest]; [contradiction|].
  destruct (process_files_file_by_file (p :: rest) script_dir 0 0
              (loop_start script_dir w (p :: rest)) Hret)
    as (w' & evs & sps & Hfiles & Htr & Hsp & Hall).
  fold results in Hfiles, Hall.
  exists evs, sps.
  rewrite (run_script_of_loop tool script_dir w p rest Hex Hget), Hfiles.
  cbn [fst snd Nat.add]. split; [|split; assumption].
  unfold extend at 1. cbn [trace]. rewrite Htr.
  unfold loop_start, extend. cbn [trace fs].
  rewrite <- !app_assoc. cbn [app]. rewrite <- ?app_assoc. reflexivity.
Qed.

End FileByFile.

Lemma run_commands_file_by_file_witness :
  exists evs sps,
    trace (snd (run_script Sample.tool_webp_b Sample.app (Sample.start Sample.tree)))
    = Iterdir Sample.imports
      :: listing [Sample.imports // "a.glb"; Sample.imports // "b.GLB"]
      ++ evs ++ summary 2 1 1
    /\ spawned evs = concat sps /\ List.length sps = 2.
Proof.
  destruct (run_commands_file_by_file Sample.tool_webp_b Sample.app
              (Sample.start Sample.tree)
              [Sample.imports // "a.glb"; Sample.imports // "b.GLB"]
              eq_refl ltac:(vm_compute; reflexivity) ltac:(discriminate)
              ltac:(vm_compute; repeat constructor; eexists; reflexivity))
    as (evs & sps & Htr & Hsp & Hall).
  exists evs, sps. split; [|split; [exact Hsp|]].
  - rewrite Htr.
    replace (closing _) with (@nil event) by (vm_compute; reflexivity).
    replace (successes _) with 1 by (vm_compute; reflexivity).
    replace (failures _) with 1 by (vm_compute; reflexivity).
    cbn [Sample.start trace app List.length]. rewrite app_nil_r. reflexivity.
  - apply Forall2_length in Hall. rewrite <- Hall. vm_compute. reflexivity.
Defined.

(** ** Discovered files *)

(** X10: discovery answers only paths that lie directly in the imports
    directory and carry a name, and answers none of them twice when the
    listing holds none twice. *)
Theorem discovered_direct_and_distinct (imports_dir : Path) (w : World)
        (found : list Path) :
  fst (get_glb_files imports_dir w) = Ok found ->
  (forall p, In p found -> parent p = imports_dir /\ name p <> ""%string)
  /\ (NoDup (children (fs w) imports_dir) -> NoDup found).
Proof.
  intros Hget. pose proof (get_glb_files_found _ _ _ Hget) as Hfound.
  pose proof (sorted_permutation path_ltb
                (filter (asset (fs w)) (children (fs w) imports_dir))) as Hperm.
  rewrite <- Hfound in Hperm. split.
  - intros p Hp. split; [|eapply discovered_named; eauto].
    apply (Permutation_in _ Hperm) in Hp. apply filter_In in Hp.
    destruct Hp as [Hp _]. apply children_spec in Hp.
    rewrite Hp at 1. apply parent_child.
  - intros Hnd. apply (Permutation_NoDup (Permutation_sym Hperm)).
    apply NoDup_filter. exact Hnd.
Qed.

Lemma discovered_direct_and_distinct_witness :
  NoDup [Sample.imports // "a.glb"; Sample.imports // "b.GLB"].
Proof.
  apply (proj2 (discovered_direct_and_distinct Sample.imports
                  (Sample.start Sample.tree)
                  [Sample.imports // "a.glb"; Sample.imports // "b.GLB"]
                  ltac:(vm_compute; reflexivity))).
  vm_compute.
  repeat (constructor; [intros H; repeat (destruct H as [H|H]; [discriminate H|]);
                        exact H|]).
  constructor.
Defined.
